(** * vite-plugin-sri: the integrity rewriter of [src/index.ts]

    A shallow embedding of the plugin's [writeBundle] hook: the bundle
    registry kept across emission events, the selection of the HTML
    documents, the per-element [calculateIntegrityHashes] and the document
    pass, followed by the properties the specification states about them.

    Conventions.
    - A JavaScript string is a [string]; a [Uint8Array] or [Buffer] is a
      [list byte].  Hashing a string hashes its UTF-8 bytes, which is the
      byte sequence a [string] here stands for.
    - A JavaScript object used as a map is the list of its entries in
      property order ([Object.entries]): array-index keys first, ascending,
      then the other keys in insertion order.  Keys are ordinary property
      names: file names and attribute names, never [__proto__].
    - cheerio's parser and serializer and Node's [path.resolve] are outside
      the repository: they are parameters of the development, and the
      rewriter is described on the parsed tree.
    - [createHash('sha384')] and the base64 encoding of [Buffer.toString]
      are modelled from FIPS 180-4 and RFC 4648 and checked on test
      vectors. *)

From Stdlib Require Import ZArith List String Ascii Bool Lia Arith.
From Stdlib Require Import Init.Byte.
Import ListNotations.

Local Open Scope string_scope.
Local Open Scope list_scope.

(* ================================================================== *)
(** ** SHA-384 (node:crypto [createHash('sha384')]) *)
(* ================================================================== *)

Module Sha384.

Local Open Scope Z_scope.

Definition mask64 : Z := Z.ones 64.

Definition add64 (x y : Z) : Z := Z.land (x + y) mask64.

Definition rotr (n x : Z) : Z :=
  Z.lor (Z.shiftr x n) (Z.land (Z.shiftl x (64 - n)) mask64).

Definition shr (n x : Z) : Z := Z.shiftr x n.

Definition Ch (x y z : Z) : Z :=
  Z.lxor (Z.land x y) (Z.land (Z.lxor x mask64) z).

Definition Maj (x y z : Z) : Z :=
  Z.lxor (Z.lxor (Z.land x y) (Z.land x z)) (Z.land y z).

Definition bigSigma0 (x : Z) : Z :=
  Z.lxor (Z.lxor (rotr 28 x) (rotr 34 x)) (rotr 39 x).

Definition bigSigma1 (x : Z) : Z :=
  Z.lxor (Z.lxor (rotr 14 x) (rotr 18 x)) (rotr 41 x).

Definition smallSigma0 (x : Z) : Z :=
  Z.lxor (Z.lxor (rotr 1 x) (rotr 8 x)) (shr 7 x).

Definition smallSigma1 (x : Z) : Z :=
  Z.lxor (Z.lxor (rotr 19 x) (rotr 61 x)) (shr 6 x).

Definition K : list Z :=
  [ 0x428a2f98d728ae22; 0x7137449123ef65cd; 0xb5c0fbcfec4d3b2f; 0xe9b5dba58189dbbc;
    0x3956c25bf348b538; 0x59f111f1b605d019; 0x923f82a4af194f9b; 0xab1c5ed5da6d8118;
    0xd807aa98a3030242; 0x12835b0145706fbe; 0x243185be4ee4b28c; 0x550c7dc3d5ffb4e2;
    0x72be5d74f27b896f; 0x80deb1fe3b1696b1; 0x9bdc06a725c71235; 0xc19bf174cf692694;
    0xe49b69c19ef14ad2; 0xefbe4786384f25e3; 0x0fc19dc68b8cd5b5; 0x240ca1cc77ac9c65;
    0x2de92c6f592b0275; 0x4a7484aa6ea6e483; 0x5cb0a9dcbd41fbd4; 0x76f988da831153b5;
    0x983e5152ee66dfab; 0xa831c66d2db43210; 0xb00327c898fb213f; 0xbf597fc7beef0ee4;
    0xc6e00bf33da88fc2; 0xd5a79147930aa725; 0x06ca6351e003826f; 0x142929670a0e6e70;
    0x27b70a8546d22ffc; 0x2e1b21385c26c926; 0x4d2c6dfc5ac42aed; 0x53380d139d95b3df;
    0x650a73548baf63de; 0x766a0abb3c77b2a8; 0x81c2c92e47edaee6; 0x92722c851482353b;
    0xa2bfe8a14cf10364; 0xa81a664bbc423001; 0xc24b8b70d0f89791; 0xc76c51a30654be30;
    0xd192e819d6ef5218; 0xd69906245565a910; 0xf40e35855771202a; 0x106aa07032bbd1b8;
    0x19a4c116b8d2d0c8; 0x1e376c085141ab53; 0x2748774cdf8eeb99; 0x34b0bcb5e19b48a8;
    0x391c0cb3c5c95a63; 0x4ed8aa4ae3418acb; 0x5b9cca4f7763e373; 0x682e6ff3d6b2b8a3;
    0x748f82ee5defb2fc; 0x78a5636f43172f60; 0x84c87814a1f0ab72; 0x8cc702081a6439ec;
    0x90befffa23631e28; 0xa4506cebde82bde9; 0xbef9a3f7b2c67915; 0xc67178f2e372532b;
    0xca273eceea26619c; 0xd186b8c721c0c207; 0xeada7dd6cde0eb1e; 0xf57d4f7fee6ed178;
    0x06f067aa72176fba; 0x0a637dc5a2c898a6; 0x113f9804bef90dae; 0x1b710b35131c471b;
    0x28db77f523047d84; 0x32caab7b40c72493; 0x3c9ebe0a15c9bebc; 0x431d67c49c100d4c;
    0x4cc5d4becb3e42b6; 0x597f299cfc657e2a; 0x5fcb6fab3ad6faec; 0x6c44198c4a475817 ].

(** The initial hash value of SHA-384. *)
Definition H0 : list Z :=
  [ 0xcbbb9d5dc1059ed8; 0x629a292a367cd507; 0x9159015a3070dd17; 0x152fecd8f70e5939;
    0x67332667ffc00b31; 0x8eb44a8768581511; 0xdb0c2e0d64f98fa7; 0x47b5481dbefa4fa4 ].

(** Big-endian conversion between bytes (as numbers below 256) and words. *)
Definition be_word (bs : list Z) : Z :=
  fold_left (fun acc b => Z.lor (Z.shiftl acc 8) b) bs 0.

Fixpoint be_bytes (n : nat) (x : Z) : list Z :=
  match n with
  | O => []
  | S n' => Z.land (Z.shiftr x (8 * Z.of_nat n')) 255 :: be_bytes n' x
  end.

Fixpoint chunks (size count : nat) (l : list Z) : list (list Z) :=
  match count with
  | O => []
  | S c => firstn size l :: chunks size c (skipn size l)
  end.

(** Padding: a 1 bit, zeros, and the bit length on 128 bits, up to a
    multiple of 1024 bits. *)
Definition pad (msg : list Z) : list Z :=
  let len := Z.of_nat (List.length msg) in
  let zeros := (111 - len) mod 128 in
  msg ++ [128] ++ repeat 0 (Z.to_nat zeros) ++ be_bytes 16 (8 * len).

(** The message schedule: [extend n W] appends the next [n] words. *)
Fixpoint extend (n : nat) (W : list Z) : list Z :=
  match n with
  | O => W
  | S n' =>
      let t := List.length W in
      let at_ (back : nat) := nth (t - back) W 0 in
      let wt := add64 (add64 (add64 (smallSigma1 (at_ 2%nat)) (at_ 7%nat))
                              (smallSigma0 (at_ 15%nat))) (at_ 16%nat) in
      extend n' (W ++ [wt])
  end.

Definition schedule (block : list Z) : list Z :=
  extend 64 (map be_word (chunks 8 16 block)).

Record Vars : Type := mkVars { va : Z; vb : Z; vc : Z; vd : Z; ve : Z; vf : Z; vg : Z; vh : Z }.

Definition round (v : Vars) (kw : Z * Z) : Vars :=
  let '(k, w) := kw in
  let T1 := add64 (add64 (add64 (add64 (vh v) (bigSigma1 (ve v))) (Ch (ve v) (vf v) (vg v))) k) w in
  let T2 := add64 (bigSigma0 (va v)) (Maj (va v) (vb v) (vc v)) in
  mkVars (add64 T1 T2) (va v) (vb v) (vc v) (add64 (vd v) T1) (ve v) (vf v) (vg v).

Definition vars_of (h : list Z) : Vars :=
  mkVars (nth 0 h 0) (nth 1 h 0) (nth 2 h 0) (nth 3 h 0)
         (nth 4 h 0) (nth 5 h 0) (nth 6 h 0) (nth 7 h 0).

Definition list_of (v : Vars) : list Z :=
  [va v; vb v; vc v; vd v; ve v; vf v; vg v; vh v].

Definition compress (h : list Z) (block : list Z) : list Z :=
  let v := fold_left round (combine K (schedule block)) (vars_of h) in
  map (fun p => add64 (fst p) (snd p)) (combine h (list_of v)).

Definition digest_words (msg : list Z) : list Z :=
  let padded := pad msg in
  fold_left compress (chunks 128 (List.length padded / 128) padded) H0.

(** The digest keeps the first six of the eight words: 48 bytes. *)
Definition digest (msg : list byte) : list byte :=
  let ws := firstn 6 (digest_words (map (fun b => Z.of_N (Byte.to_N b)) msg)) in
  flat_map (fun x => map (fun z => match Byte.of_N (Z.to_N z) with
                                    | Some b => b
                                    | None => x00
                                    end) (be_bytes 8 x)) ws.

End Sha384.

(* ================================================================== *)
(** ** Base64 ([Buffer.prototype.toString('base64')]) *)
(* ================================================================== *)

Module Base64.

Definition alphabet : string :=
  "ABCDEFGHIJKLMNOPQRSTUVWXYZabcdefghijklmnopqrstuvwxyz0123456789+/".

Definition digit (n : N) : ascii :=
  match String.get (N.to_nat n) alphabet with
  | Some c => c
  | None => "="%char
  end.

Definition sextet (x : N) (i : N) : ascii :=
  digit (N.land (N.shiftr x (6 * i)) 63).

(** Three bytes give four digits; a last group of one or two bytes is
    padded with [=]. *)
Fixpoint encode (bs : list byte) : string :=
  match bs with
  | [] => ""
  | [a] =>
      let x := N.shiftl (Byte.to_N a) 16 in
      String (sextet x 3) (String (sextet x 2) "==")
  | [a; b] =>
      let x := N.lor (N.shiftl (Byte.to_N a) 16) (N.shiftl (Byte.to_N b) 8) in
      String (sextet x 3) (String (sextet x 2) (String (sextet x 1) "="))
  | a :: b :: c :: rest =>
      let x := N.lor (N.lor (N.shiftl (Byte.to_N a) 16) (N.shiftl (Byte.to_N b) 8))
                     (Byte.to_N c) in
      String (sextet x 3) (String (sextet x 2) (String (sextet x 1)
        (String (sextet x 0) (encode rest))))
  end.

End Base64.

(* ================================================================== *)
(** ** JavaScript strings *)
(* ================================================================== *)

Module Js.

(** [s.substring(n)]: [s] without its first [n] characters. *)
Fixpoint substring (n : nat) (s : string) : string :=
  match n, s with
  | O, _ => s
  | S n', String _ r => substring n' r
  | S _, EmptyString => EmptyString
  end.

(** [s.indexOf(t)]: the first position at which [t] occurs in [s], and
    [-1] when it does not occur. *)
Fixpoint indexOf (s t : string) : Z :=
  if String.prefix t s then 0%Z
  else match s with
       | EmptyString => (-1)%Z
       | String _ r =>
           let i := indexOf r t in
           if (i <? 0)%Z then (-1)%Z else (i + 1)%Z
       end.

(** [s.endsWith(t)]. *)
Definition endsWith (s t : string) : bool :=
  (String.length t <=? String.length s)%nat
  && String.eqb (substring (String.length s - String.length t) s) t.

(** Truthiness of a string: every string but the empty one. *)
Definition truthy_string (s : string) : bool := negb (String.eqb s "").

End Js.

(* ================================================================== *)
(** ** JavaScript objects used as maps *)
(* ================================================================== *)

Module JsObject.

(** An array index is a canonical decimal numeral below [2^32 - 1]; such
    keys are enumerated first, in ascending order. *)
Definition digitVal (c : ascii) : option N :=
  let n := N_of_ascii c in
  if ((48 <=? n) && (n <=? 57))%N then Some (n - 48)%N else None.

Fixpoint parseDigits (acc : N) (s : string) : option N :=
  match s with
  | EmptyString => Some acc
  | String c r =>
      match digitVal c with
      | Some d => parseDigits (10 * acc + d)%N r
      | None => None
      end
  end.

Definition arrayIndex (k : string) : option N :=
  match k with
  | EmptyString => None
  | String c r =>
      if Ascii.eqb c "0" && negb (String.eqb r "") then None
      else match parseDigits 0 k with
           | Some n => if (n <? 4294967295)%N then Some n else None
           | None => None
           end
  end.

(** [before k k']: a new key [k] is enumerated before the present key [k']. *)
Definition before (k k' : string) : bool :=
  match arrayIndex k, arrayIndex k' with
  | Some n, Some n' => (n <? n')%N
  | Some _, None => true
  | None, _ => false
  end.

Section Entries.

Context {V : Type}.

(** The own enumerable properties, as [Object.entries] lists them. *)
Definition t : Type := list (string * V).

Definition keys (o : t) : list string := map fst o.

(** [o[k]] for an own property [k]; [None] is [undefined]. *)
Fixpoint get (k : string) (o : t) : option V :=
  match o with
  | [] => None
  | (k', v') :: r => if String.eqb k k' then Some v' else get k r
  end.

Definition has (k : string) (o : t) : bool :=
  match get k o with Some _ => true | None => false end.

(** Overwriting a present property keeps its place. *)
Fixpoint replace (k : string) (v : V) (o : t) : t :=
  match o with
  | [] => []
  | (k', v') :: r =>
      if String.eqb k k' then (k', v) :: r else (k', v') :: replace k v r
  end.

(** A new property goes after the present ones, an array index among
    the array indices. *)
Fixpoint insertNew (k : string) (v : V) (o : t) : t :=
  match o with
  | [] => [(k, v)]
  | (k', v') :: r =>
      if before k k' then (k, v) :: o else (k', v') :: insertNew k v r
  end.

(** [o[k] = v] for an ordinary property name [k]. *)
Definition set (k : string) (v : V) (o : t) : t :=
  if has k o then replace k v o else insertNew k v o.

End Entries.

Arguments t : clear implicits.

End JsObject.

(* ================================================================== *)
(** ** Data model *)
(* ================================================================== *)

(** [string | Uint8Array]: the source of an asset, the code of a chunk, the
    [Buffer] read from disk. *)
Inductive Content : Type :=
| Text (s : string)
| Binary (bytes : list byte).

(** The records of rollup's [OutputBundle]. *)
Inductive OutputItem : Type :=
| OutputAsset (fileName : string) (source : Content)
| OutputChunk (fileName : string) (code : string).

Definition fileName (item : OutputItem) : string :=
  match item with
  | OutputAsset f _ => f
  | OutputChunk f _ => f
  end.

Definition OutputBundle : Type := JsObject.t OutputItem.

(** The fields of vite's [ResolvedConfig] the plugin reads. *)
Record ResolvedConfig : Type := mkConfig {
  base : string;
  root : string;
  outDir : string
}.

(** An element of the parsed document: its tag name and its attributes. *)
Record Element : Type := mkElement {
  name : string;
  attribs : JsObject.t string
}.

Inductive LeafKind : Type := TextNode | CommentNode | DirectiveNode.

#[local] Set Warnings "-register-all".

Inductive Node : Type :=
| Leaf (kind : LeafKind) (data : string)
| Tag (e : Element) (children : list Node).

(** The files on disk: [None] when reading the path throws. *)
Definition FileSystem : Type := string -> option (list byte).

(** [writeFileSync(path, data)] when the write succeeds.  A write that
    throws (missing directory, unwritable path) is not modelled: the
    statements below say where the hook writes and what it hands over, not
    that the file system accepts it. *)
Definition writeFile (path : string) (data : list byte) (fs : FileSystem) : FileSystem :=
  fun p => if String.eqb p path then Some data else fs p.

(** [if (source)]: [undefined] and the empty string are falsy; a
    [Uint8Array] or [Buffer] is an object and is truthy whatever its length. *)
Definition truthy (source : option Content) : bool :=
  match source with
  | None => false
  | Some (Text s) => Js.truthy_string s
  | Some (Binary _) => true
  end.

Definition bytes_of (c : Content) : list byte :=
  match c with
  | Text s => list_byte_of_string s
  | Binary b => b
  end.

(** [`sha384-${createHash('sha384').update(source).digest().toString('base64')}`] *)
Definition integrityOf (c : Content) : string :=
  "sha384-" ++ Base64.encode (Sha384.digest (bytes_of c)).

(* ================================================================== *)
(** ** The plugin *)
(* ================================================================== *)

Section Plugin.

(** Node's [path.resolve], applied to its arguments in order. *)
Variable resolve : list string -> string.

(** cheerio's [load] (the children of the document root) and [$.html()]. *)
Variable load : Content -> list Node.
Variable html : list Node -> string.

(** What a call of [calculateIntegrityHashes] reads: the resolved
    configuration, the registry, the disk and [options.dir]. *)
Record Env : Type := mkEnv {
  config : ResolvedConfig;
  bundle : OutputBundle;
  files : FileSystem;
  dir : option string
}.

(** *** Resolution of a reference *)

(** [element.attribs.src ? 'src' : 'href'] *)
Definition attributeName (e : Element) : string :=
  match JsObject.get "src" (attribs e) with
  | Some s => if Js.truthy_string s then "src" else "href"
  | None => "href"
  end.

(** [element.attribs[attributeName]]; [None] is [undefined]. *)
Definition resourceUrl (e : Element) : option string :=
  JsObject.get (attributeName e) (attribs e).

Definition resourcePath (base url : string) : string :=
  if (Js.indexOf url base =? 0)%Z
  then Js.substring (String.length base) url
  else url.

(** [Object.entries(bundle).find(([, item]) => item.fileName === path)?.[1]] *)
Definition findItem (b : OutputBundle) (path : string) : option OutputItem :=
  option_map snd (find (fun kv => String.eqb (fileName (snd kv)) path) b).

Definition content (item : OutputItem) : Content :=
  match item with
  | OutputAsset _ source => source
  | OutputChunk _ code => Text code
  end.

Definition warning (path : string) : string :=
  "cannot find " ++ path ++ " in output bundle.".

(** [readFileSync(resolve(options.dir, path))] inside [try]: a missing
    [options.dir] makes [resolve] throw, a missing file makes
    [readFileSync] throw; both leave [source] undefined. *)
Definition readFallback (env : Env) (path : string) : option Content :=
  match dir env with
  | Some d => option_map Binary (files env (resolve [d; path]))
  | None => None
  end.

(** The value of [source] for a candidate key, and the warnings logged. *)
Definition resolveKey (env : Env) (path : string) : option Content * list string :=
  match findItem (bundle env) path with
  | None => (readFallback env path, [warning path])
  | Some t => (Some (content t), [])
  end.

Definition resolveSource (env : Env) (url : string) : option Content * list string :=
  resolveKey env (resourcePath (base (config env)) url).

(** *** Mutation of an element *)

Definition setIntegrity (source : option Content) (a : JsObject.t string) : JsObject.t string :=
  match source with
  | Some c => if truthy source then JsObject.set "integrity" (integrityOf c) a else a
  | None => a
  end.

Definition setCrossorigin (a : JsObject.t string) : JsObject.t string :=
  match JsObject.get "crossorigin" a with
  | None => JsObject.set "crossorigin" "anonymous" a
  | Some _ => a
  end.

(** [calculateIntegrityHashes]: [None] when the call throws, which it
    does at [resourceUrl.indexOf] when the element has no reference URL,
    before anything is logged or written. *)
Definition calculateIntegrityHashes (env : Env) (e : Element)
  : option (Element * list string) :=
  match resourceUrl e with
  | None => None
  | Some url =>
      let '(source, warns) := resolveSource env url in
      Some (mkElement (name e) (setCrossorigin (setIntegrity source (attribs e))), warns)
  end.

(** *** The document pass *)

(** What a pass over the tree leaves behind besides the mutated tree. *)
Record Trace : Type := mkTrace {
  warnings : list string;
  rejected : bool
}.

Definition noTrace : Trace := mkTrace [] false.

Definition appTrace (t1 t2 : Trace) : Trace :=
  mkTrace (warnings t1 ++ warnings t2) (rejected t1 || rejected t2).

(** [$('script').filter('[src]')] and [$('link').filter('[href]')]. *)
Definition isScript (e : Element) : bool :=
  String.eqb (name e) "script" && JsObject.has "src" (attribs e).

Definition isStylesheet (e : Element) : bool :=
  String.eqb (name e) "link" && JsObject.has "href" (attribs e).

Definition eligible (e : Element) : bool := isScript e || isStylesheet e.

Definition visit (env : Env) (sel : Element -> bool) (e : Element) : Element * Trace :=
  if sel e then
    match calculateIntegrityHashes env e with
    | Some (e', w) => (e', mkTrace w false)
    | None => (e, mkTrace [] true)
    end
  else (e, noTrace).

(** One [.map] over a selection: the selected elements, in document
    order, are handed to [calculateIntegrityHashes], which mutates them
    in place. *)
Fixpoint pass (env : Env) (sel : Element -> bool) (n : Node) : Node * Trace :=
  match n with
  | Leaf k d => (Leaf k d, noTrace)
  | Tag e cs =>
      let '(e', t) := visit env sel e in
      let fix passAll (l : list Node) : list Node * Trace :=
        match l with
        | [] => ([], noTrace)
        | c :: r =>
            let '(c', t1) := pass env sel c in
            let '(r', t2) := passAll r in
            (c' :: r', appTrace t1 t2)
        end in
      let '(cs', ts) := passAll cs in
      (Tag e' cs', appTrace t ts)
  end.

Fixpoint passAll (env : Env) (sel : Element -> bool) (l : list Node) : list Node * Trace :=
  match l with
  | [] => ([], noTrace)
  | c :: r =>
      let '(c', t1) := pass env sel c in
      let '(r', t2) := passAll env sel r in
      (c' :: r', appTrace t1 t2)
  end.

(** The body of the [htmls.forEach] callback up to [await Promise.all]:
    every script, then every stylesheet.  The calls contain no [await], so
    they run to completion one after the other; when one of them throws,
    the others still run, [Promise.all] rejects and nothing is written. *)
Definition rewriteDom (env : Env) (doc : list Node) : list Node * Trace :=
  let '(d1, t1) := passAll env isScript doc in
  let '(d2, t2) := passAll env isStylesheet d1 in
  (d2, appTrace t1 t2).

(** The markup handed to [writeFileSync], when the callback gets there. *)
Definition rewriteDocument (env : Env) (source : Content) : option string * Trace :=
  let '(d, t) := rewriteDom env (load source) in
  (if rejected t then None else Some (html d), t).

(** *** The registry and the hook *)

(** [Object.entries(_bundle).forEach(([k, v]) => { bundle[k] = v })] *)
Definition merge (registry : OutputBundle) (emitted : OutputBundle) : OutputBundle :=
  fold_left (fun acc kv => JsObject.set (fst kv) (snd kv) acc) emitted registry.

(** [Object.keys(bundle).filter(...).map(...).filter(item => !!item)] *)
Definition htmlOf (b : OutputBundle) (filename : string) : option (string * Content) :=
  match JsObject.get filename b with
  | Some (OutputAsset f source) => Some (f, source)
  | _ => None
  end.

Definition htmls (b : OutputBundle) : list (string * Content) :=
  flat_map (fun item => match item with Some x => [x] | None => [] end)
    (map (htmlOf b)
       (filter (fun filename => Js.endsWith filename ".html") (JsObject.keys b))).

(** The state the hook works on: the closure's [config] and [bundle], the
    disk and the logger's output. *)
Record State : Type := mkState {
  st_config : ResolvedConfig;
  st_bundle : OutputBundle;
  st_files : FileSystem;
  st_log : list string
}.

(** What one document of [htmls] comes to: its name, the markup to write
    (if any) and its trace. *)
Definition rewriteAll (env : Env) : list (string * (option string * Trace)) :=
  map (fun d => (fst d, rewriteDocument env (snd d))) (htmls (bundle env)).

(** The [writeFileSync] calls of the hook: target name and markup. *)
Definition written (results : list (string * (option string * Trace)))
  : list (string * string) :=
  flat_map (fun r => match fst (snd r) with
                     | Some markup => [(fst r, markup)]
                     | None => []
                     end) results.

Definition outputPath (cfg : ResolvedConfig) (docName : string) : string :=
  resolve [root cfg; outDir cfg; docName].

(** [writeBundle(options, _bundle)].  Every callback of [htmls.forEach]
    runs up to its [await] before any of them resumes, so all the reads of
    the disk come before the first [writeFileSync]. *)
Definition writeBundle (s : State) (optionsDir : option string) (emitted : OutputBundle) : State :=
  let b := merge (st_bundle s) emitted in
  let env := mkEnv (st_config s) b (st_files s) optionsDir in
  let results := rewriteAll env in
  mkState (st_config s) b
    (fold_left (fun fs w => writeFile (outputPath (st_config s) (fst w))
                                      (list_byte_of_string (snd w)) fs)
               (written results) (st_files s))
    (st_log s ++ flat_map (fun r => warnings (snd (snd r))) results).

(** *** Predicates used in the statements *)

(** The shape of rollup's [OutputBundle]: every record is stored under
    its own [fileName]. *)
Definition keyedByFileName (b : OutputBundle) : Prop :=
  forall k v, In (k, v) b -> fileName v = k.

(** The attributes the rewriter may write. *)
Definition isSriAttribute (k : string) : bool :=
  String.eqb k "integrity" || String.eqb k "crossorigin".

(** An element without the attributes the rewriter may write, when it is
    one the rewriter selects; the tree with every element so erased. *)
Definition eraseElement (e : Element) : Element :=
  if eligible e
  then mkElement (name e) (filter (fun kv => negb (isSriAttribute (fst kv))) (attribs e))
  else e.

Fixpoint erase (n : Node) : Node :=
  match n with
  | Leaf k d => Leaf k d
  | Tag e cs => Tag (eraseElement e) (map erase cs)
  end.

End Plugin.

(* ================================================================== *)
(** ** Concrete instances *)
(* ================================================================== *)

(** Small instances of the parameters and of the data, on which the
    statements below are exercised. *)
Module Demo.

(** A stand-in for [path.resolve] on relative segments. *)
Definition joinPath (segments : list string) : string :=
  String.concat "/" segments.

Definition renderAttribute (kv : string * string) : string :=
  " " ++ fst kv ++ "='" ++ snd kv ++ "'".

(** A plain serializer of the tree. *)
Fixpoint render (n : Node) : string :=
  match n with
  | Leaf _ d => d
  | Tag e cs =>
      "<" ++ name e ++ String.concat "" (map renderAttribute (attribs e)) ++ ">"
      ++ String.concat "" (map render cs) ++ "</" ++ name e ++ ">"
  end.

Definition renderAll (doc : list Node) : string :=
  String.concat "" (map render doc).

Definition script (src : string) : Element :=
  mkElement "script" [("src", src)].

Definition stylesheet (href : string) : Element :=
  mkElement "link" [("rel", "stylesheet"); ("href", href)].

(** [<html><head><link ...><script ...></script></head><body>hi</body></html>] *)
Definition page (href src : string) : list Node :=
  [Tag (mkElement "html" [])
     [Tag (mkElement "head" [])
        [Tag (stylesheet href) []; Tag (script src) []];
      Tag (mkElement "body" []) [Leaf TextNode "hi"]]].

Definition cfg : ResolvedConfig := mkConfig "/" "/project" "dist".

Definition noFiles : FileSystem := fun _ => None.

Definition legacyPass : OutputBundle :=
  [("assets/legacy.js", OutputChunk "assets/legacy.js" "console.log(1)")].

Definition modernPass : OutputBundle :=
  [("assets/app.css", OutputAsset "assets/app.css" (Binary [x62; x7b; x7d]));
   ("index.html", OutputAsset "index.html" (Text "<html>...</html>"))].

(** A parser that knows one document. *)
Definition loadPage (_ : Content) : list Node :=
  page "/assets/app.css" "/assets/legacy.js".

(** A pass that emitted a chunk with no code. *)
Definition emptyChunkPass : OutputBundle :=
  [("assets/empty.js", OutputChunk "assets/empty.js" "")].

(** A disk with one file, of length zero, under the output directory. *)
Definition emptyFileOnDisk : FileSystem :=
  fun path => if String.eqb path "dist/assets/empty.css" then Some [] else None.

(** [<script src></script>]: the attribute is there, its value is empty. *)
Definition emptySrcPage (_ : Content) : list Node :=
  [Tag (mkElement "html" [])
     [Tag (mkElement "head" []) [Tag (script "") []];
      Tag (mkElement "body" []) []]].

Definition emptySrcPass : OutputBundle :=
  [("index.html",
    OutputAsset "index.html"
      (Text "<html><head><script src></script></head><body></body></html>"))].

End Demo.

(* ================================================================== *)
(** ** Predicates and instances for the further properties *)
(* ================================================================== *)

(** Some element of the tree satisfies [p]. *)
Fixpoint existsElement (p : Element -> bool) (n : Node) : bool :=
  match n with
  | Leaf _ _ => false
  | Tag e cs => p e || existsb (existsElement p) cs
  end.

(** The element has no reference URL: [element.attribs[attributeName]] is
    [undefined]. *)
Definition hasNoUrl (e : Element) : bool :=
  match resourceUrl e with
  | Some _ => false
  | None => true
  end.

(** The selection that selects no element. *)
Definition nothing (_ : Element) : bool := false.

(** The characters of a string. *)
Definition chars (s : string) : list ascii := list_ascii_of_string s.

(** One of the 64 digits of base64; the padding character is not one. *)
Definition isBase64Digit (c : ascii) : bool :=
  existsb (Ascii.eqb c) (chars Base64.alphabet).

Module Samples.

(** A disk that holds a stylesheet the registry does not track. *)
Definition cssOnDisk : FileSystem :=
  fun path => if String.eqb path "dist/assets/old.css" then Some [x61; x7b; x7d] else None.

(** A script that already carries both attributes. *)
Definition rewrittenScript : Element :=
  mkElement "script"
    [("src", "/assets/legacy.js"); ("integrity", "sha384-stale"); ("crossorigin", "use-credentials")].

(** A document without any reference. *)
Definition plainPage : list Node :=
  [Tag (mkElement "html" [])
     [Tag (mkElement "head" []) [Tag (mkElement "script" []) [Leaf TextNode "let x = 1"]];
      Tag (mkElement "body" []) [Tag (mkElement "a" [("href", "/about")]) [Leaf TextNode "about"]]]].

End Samples.

(* ================================================================== *)
(** ** Test vectors for the digest *)
(* ================================================================== *)

Example sha384_empty :
  Base64.encode (Sha384.digest []) =
  "OLBgp1GsljhM2TJ+sbHjaiH9txEUvgdDTAzHv2P24donTt6/529l+9Ua0vFImLlb".
Proof. vm_compute. reflexivity. Qed.

Example sha384_two_blocks :
  Base64.encode
    (Sha384.digest (list_byte_of_string (String.concat "" (repeat "a" 200)))) =
  "BpG26XhhS2fWBVeyos3dU0BlCFIu+iHGJNu/qKtucm1cWGtInHwJ8kEJpkwQIR1I".
Proof. vm_compute. reflexivity. Qed.

Example sha384_console_log :
  Base64.encode (Sha384.digest (list_byte_of_string "console.log(1)")) =
  "vuz+yO71bcb30P4dMUNzy6/D2y+6d/n0KcOnt5clJtTBxEDoKAqGay0stFlC8Dpr".
Proof. vm_compute. reflexivity. Qed.

(* ================================================================== *)
(** ** The model on small inputs *)
(* ================================================================== *)

Example indexOf_inside : Js.indexOf "abcabc" "ca" = 2%Z.
Proof. reflexivity. Qed.

Example indexOf_absent : Js.indexOf "assets/app.js" "/app/" = (-1)%Z.
Proof. reflexivity. Qed.

Example endsWith_html :
  Js.endsWith "index.html" ".html" = true /\ Js.endsWith "html" ".html" = false.
Proof. split; reflexivity. Qed.

(** Property order: array indices first and ascending, then insertion order. *)
Example property_order :
  JsObject.set "10" 1 (JsObject.set "b" 2 (JsObject.set "2" 3 (JsObject.set "a" 4 [])))
  = [("2", 3); ("10", 1); ("a", 4); ("b", 2)].
Proof. reflexivity. Qed.

(** A script the registry tracks, referred to under the base path [/]. *)
Example tracked_script :
  calculateIntegrityHashes Demo.joinPath
    (mkEnv Demo.cfg
       [("assets/app.js",
         OutputAsset "assets/app.js" (Binary (list_byte_of_string "console.log(1)")))]
       Demo.noFiles (Some "dist"))
    (Demo.script "/assets/app.js")
  = Some (mkElement "script"
            [("src", "/assets/app.js");
             ("integrity",
              "sha384-vuz+yO71bcb30P4dMUNzy6/D2y+6d/n0KcOnt5clJtTBxEDoKAqGay0stFlC8Dpr");
             ("crossorigin", "anonymous")],
          []).
Proof. vm_compute. reflexivity. Qed.

(** A legacy pass, then the modern pass with the document: both references
    are resolved from the registry and the document is written once. *)
Example two_passes :
  option_map string_of_list_byte
    (st_files
       (writeBundle Demo.joinPath Demo.loadPage Demo.renderAll
          (writeBundle Demo.joinPath Demo.loadPage Demo.renderAll
             (mkState Demo.cfg [] Demo.noFiles []) (Some "dist") Demo.legacyPass)
          (Some "dist") Demo.modernPass)
       "/project/dist/index.html")
  = Some ("<html><head>"
          ++ "<link rel='stylesheet' href='/assets/app.css'"
          ++ " integrity='sha384-SQNXm2fpDDXH4qQxEf3DGYpEb8i9sT4PiJ1Y4CkfwqDi5bpP8I8AnITZYWADARxA'"
          ++ " crossorigin='anonymous'></link>"
          ++ "<script src='/assets/legacy.js'"
          ++ " integrity='sha384-vuz+yO71bcb30P4dMUNzy6/D2y+6d/n0KcOnt5clJtTBxEDoKAqGay0stFlC8Dpr'"
          ++ " crossorigin='anonymous'></script>"
          ++ "</head><body>hi</body></html>")%string.
Proof. vm_compute. reflexivity. Qed.

(* ================================================================== *)
(** ** Facts about strings *)
(* ================================================================== *)

Section StringFacts.

Lemma prefix_app (b p : string) : String.prefix b (b ++ p)%string = true.
Proof.
  induction b as [|c b IH]; simpl.
  - destruct p; reflexivity.
  - destruct (ascii_dec c c) as [_|Hne]; [exact IH | now elim Hne].
Qed.

Lemma prefix_split (b u : string) :
  String.prefix b u = true -> u = (b ++ Js.substring (String.length b) u)%string.
Proof.
  revert u; induction b as [|c b IH]; intros u H.
  - reflexivity.
  - destruct u as [|d u]; simpl in H; [discriminate|].
    destruct (ascii_dec c d) as [Heq|]; [subst d|discriminate].
    simpl. f_equal. now apply IH.
Qed.

Lemma substring_app (b p : string) :
  Js.substring (String.length b) (b ++ p)%string = p.
Proof. induction b as [|c b IH]; simpl; [reflexivity | exact IH]. Qed.

Lemma indexOf_unfold (s t : string) :
  Js.indexOf s t =
  if String.prefix t s then 0%Z
  else match s with
       | EmptyString => (-1)%Z
       | String _ r =>
           if (Js.indexOf r t <? 0)%Z then (-1)%Z else (Js.indexOf r t + 1)%Z
       end.
Proof. destruct s; reflexivity. Qed.

(** [url.indexOf(base) === 0] says exactly that [url] starts with [base]. *)
Lemma indexOf_zero_prefix (s t : string) :
  (Js.indexOf s t =? 0)%Z = String.prefix t s.
Proof.
  rewrite indexOf_unfold.
  destruct (String.prefix t s); [reflexivity|].
  destruct s as [|c s]; [reflexivity|].
  destruct (Z.ltb_spec (Js.indexOf s t) 0); [reflexivity|].
  apply Z.eqb_neq. lia.
Qed.

Lemma list_byte_of_string_nil (s : string) :
  list_byte_of_string s = [] -> s = "".
Proof. destruct s; simpl; [reflexivity | discriminate]. Qed.

End StringFacts.

(* ================================================================== *)
(** ** Facts about objects *)
(* ================================================================== *)

Section ObjectFacts.

Context {V : Type}.
Implicit Types (o : JsObject.t V) (k : string) (v : V).

Lemma get_replace k k' v o :
  JsObject.get k (JsObject.replace k' v o) =
  if String.eqb k k' then (if JsObject.has k' o then Some v else None)
  else JsObject.get k o.
Proof.
  unfold JsObject.has.
  induction o as [|[k0 v0] o IH]; simpl.
  - destruct (String.eqb k k'); reflexivity.
  - destruct (String.eqb_spec k' k0) as [->|Hne]; simpl.
    + destruct (String.eqb_spec k k0) as [->|Hk]; [reflexivity|reflexivity].
    + rewrite IH.
      destruct (String.eqb_spec k k') as [->|Hk].
      * destruct (String.eqb_spec k' k0); [contradiction|reflexivity].
      * reflexivity.
Qed.

Lemma get_insertNew k k' v o :
  JsObject.get k' o = None ->
  JsObject.get k (JsObject.insertNew k' v o) =
  if String.eqb k k' then Some v else JsObject.get k o.
Proof.
  induction o as [|[k0 v0] o IH]; simpl; intros Hnone.
  - reflexivity.
  - destruct (String.eqb_spec k' k0) as [->|Hne]; [discriminate|].
    destruct (JsObject.before k' k0); simpl.
    + reflexivity.
    + rewrite (IH Hnone).
      destruct (String.eqb_spec k k0) as [->|Hk0]; [|reflexivity].
      destruct (String.eqb_spec k0 k'); [congruence|reflexivity].
Qed.

(** Reading after writing. *)
Lemma get_set k k' v o :
  JsObject.get k (JsObject.set k' v o) =
  if String.eqb k k' then Some v else JsObject.get k o.
Proof.
  unfold JsObject.set.
  destruct (JsObject.has k' o) eqn:Hhas.
  - rewrite get_replace, Hhas. reflexivity.
  - apply get_insertNew. unfold JsObject.has in Hhas.
    destruct (JsObject.get k' o); [discriminate|reflexivity].
Qed.

Lemma has_set k k' v o :
  JsObject.has k (JsObject.set k' v o) = String.eqb k k' || JsObject.has k o.
Proof.
  unfold JsObject.has at 1. rewrite get_set.
  destruct (String.eqb k k'); reflexivity.
Qed.

(** Writing the value a property already has changes nothing. *)
Lemma replace_same k v o :
  JsObject.get k o = Some v -> JsObject.replace k v o = o.
Proof.
  induction o as [|[k0 v0] o IH]; simpl; intros H; [reflexivity|].
  destruct (String.eqb_spec k k0) as [->|Hne].
  - now inversion H.
  - now rewrite IH.
Qed.

Lemma set_same k v o :
  JsObject.get k o = Some v -> JsObject.set k v o = o.
Proof.
  intros H. unfold JsObject.set, JsObject.has. rewrite H.
  now apply replace_same.
Qed.

Lemma get_In k v o : JsObject.get k o = Some v -> In (k, v) o.
Proof.
  induction o as [|[k0 v0] o IH]; simpl; [discriminate|].
  destruct (String.eqb_spec k k0) as [->|Hne]; intros H.
  - inversion H; subst. now left.
  - right. now apply IH.
Qed.

Lemma In_keys_has k o : In k (JsObject.keys o) <-> JsObject.has k o = true.
Proof.
  unfold JsObject.has, JsObject.keys.
  induction o as [|[k0 v0] o IH]; simpl.
  - split; [contradiction|discriminate].
  - destruct (String.eqb_spec k k0) as [->|Hne].
    + split; auto.
    + rewrite <- IH. split; [intros [?|?]; [congruence|assumption] | now right].
Qed.

Lemma In_replace k v kv o :
  In kv (JsObject.replace k v o) -> kv = (k, v) \/ In kv o.
Proof.
  induction o as [|[k0 v0] o IH]; simpl; [contradiction|].
  destruct (String.eqb_spec k k0) as [->|Hne]; simpl.
  - intros [<-|H]; [now left | right; now right].
  - intros [<-|H]; [right; now left|].
    destruct (IH H); [now left | right; now right].
Qed.

Lemma In_insertNew k v kv o :
  In kv (JsObject.insertNew k v o) -> kv = (k, v) \/ In kv o.
Proof.
  induction o as [|[k0 v0] o IH]; simpl.
  - intros [<-|[]]. now left.
  - destruct (JsObject.before k k0); simpl.
    + intros [<-|H]; [now left | now right].
    + intros [<-|H]; [right; now left|].
      destruct (IH H); [now left | right; now right].
Qed.

Lemma In_set k v kv o :
  In kv (JsObject.set k v o) -> kv = (k, v) \/ In kv o.
Proof.
  unfold JsObject.set. destruct (JsObject.has k o).
  - apply In_replace.
  - apply In_insertNew.
Qed.

End ObjectFacts.

(* ================================================================== *)
(** ** Facts about the resolver and the element mutation *)
(* ================================================================== *)

Section ResolverFacts.

Variable resolve : list string -> string.

Lemma resourcePath_prefix (b u : string) :
  resourcePath b u =
  if String.prefix b u then Js.substring (String.length b) u else u.
Proof. unfold resourcePath. now rewrite indexOf_zero_prefix. Qed.

(** On a bundle keyed by file name, the search by [fileName] is the
    lookup by key. *)
Lemma findItem_keyed (b : OutputBundle) (p : string) :
  keyedByFileName b -> findItem b p = JsObject.get p b.
Proof.
  unfold findItem, keyedByFileName.
  induction b as [|[k0 v0] b IH]; simpl; intros Hk; [reflexivity|].
  rewrite (Hk k0 v0 (or_introl eq_refl)), String.eqb_sym.
  destruct (String.eqb p k0); [reflexivity|].
  apply IH. intros k v Hin. apply Hk. now right.
Qed.

Lemma resolveKey_found (env : Env) (p : string) (t : OutputItem) :
  findItem (bundle env) p = Some t ->
  resolveKey resolve env p = (Some (content t), []).
Proof. unfold resolveKey. now intros ->. Qed.

Lemma resolveKey_missing (env : Env) (p : string) :
  findItem (bundle env) p = None ->
  resolveKey resolve env p = (readFallback resolve env p, [warning p]).
Proof. unfold resolveKey. now intros ->. Qed.

Lemma get_setCrossorigin (a : JsObject.t string) (k : string) :
  JsObject.get k (setCrossorigin a) =
  if String.eqb k "crossorigin"
  then Some (match JsObject.get "crossorigin" a with
             | Some v => v
             | None => "anonymous"
             end)
  else JsObject.get k a.
Proof.
  unfold setCrossorigin.
  destruct (JsObject.get "crossorigin" a) as [v|] eqn:Hc.
  - destruct (String.eqb_spec k "crossorigin") as [->|]; [exact Hc|reflexivity].
  - rewrite get_set. reflexivity.
Qed.

Lemma get_setIntegrity (source : option Content) (a : JsObject.t string) (k : string) :
  JsObject.get k (setIntegrity source a) =
  if String.eqb k "integrity" && truthy source
  then option_map integrityOf source
  else JsObject.get k a.
Proof.
  unfold setIntegrity. destruct source as [c|].
  - destruct (truthy (Some c)).
    + rewrite get_set, andb_true_r. reflexivity.
    + rewrite andb_false_r. reflexivity.
  - rewrite andb_false_r. reflexivity.
Qed.

(** What a call on an element with a reference URL returns. *)
Lemma calculateIntegrityHashes_url (env : Env) (e : Element) (u : string) :
  resourceUrl e = Some u ->
  calculateIntegrityHashes resolve env e =
  Some (mkElement (name e)
          (setCrossorigin (setIntegrity (fst (resolveSource resolve env u)) (attribs e))),
        snd (resolveSource resolve env u)).
Proof.
  intros H. unfold calculateIntegrityHashes. rewrite H.
  now destruct (resolveSource resolve env u).
Qed.

(** The [crossorigin] attribute after a call that returns. *)
Lemma crossorigin_after (env : Env) (e : Element) (u : string) :
  resourceUrl e = Some u ->
  exists e' w,
    calculateIntegrityHashes resolve env e = Some (e', w) /\
    JsObject.get "crossorigin" (attribs e') =
    Some (match JsObject.get "crossorigin" (attribs e) with
          | Some v => v
          | None => "anonymous"
          end).
Proof.
  intros H. rewrite (calculateIntegrityHashes_url env e u H).
  eexists _, _. split; [reflexivity|].
  cbn [attribs]. rewrite get_setCrossorigin. cbn [String.eqb Ascii.eqb Bool.eqb].
  rewrite get_setIntegrity. reflexivity.
Qed.

End ResolverFacts.

(* ================================================================== *)
(** ** Resolution: base path, registry, fallback *)
(* ================================================================== *)

Section Resolution.

Variable resolve : list string -> string.

(** C4, as the code has it.  Base-path stripping is a pure prefix match,
    done once.  A URL made of the base path followed by [u] has candidate
    key [u] and resolves as the key [u] does; every URL is its candidate
    key, preceded by the base path when it was stripped, so nothing else of
    the URL ([..] segments, query string, protocol-relative form) is
    touched; a URL that does not start with the base path is its own
    candidate key; and the base path followed by [u] resolves as the URL
    [u] does whenever [u] is its own candidate key, that is when [u] does
    not start with the base path or the base path is empty. *)
Theorem base_path_is_a_pure_prefix_match (env : Env) (u : string) :
  (resourcePath (base (config env)) (base (config env) ++ u)%string = u /\
   resolveSource resolve env (base (config env) ++ u)%string = resolveKey resolve env u) /\
  u = ((if String.prefix (base (config env)) u then base (config env) else "")
       ++ resourcePath (base (config env)) u)%string /\
  (String.prefix (base (config env)) u = false ->
   resourcePath (base (config env)) u = u /\
   resolveSource resolve env u = resolveKey resolve env u) /\
  (String.prefix (base (config env)) u = false \/ base (config env) = "" ->
   resourcePath (base (config env)) u = u /\
   resolveSource resolve env (base (config env) ++ u)%string = resolveSource resolve env u).
Proof.
  assert (Hstrip : resourcePath (base (config env)) (base (config env) ++ u)%string = u).
  { rewrite resourcePath_prefix, prefix_app. apply substring_app. }
  assert (Hkey : resolveSource resolve env (base (config env) ++ u)%string
                 = resolveKey resolve env u).
  { unfold resolveSource. now rewrite Hstrip. }
  split; [split; assumption|]. split; [|split].
  - rewrite resourcePath_prefix.
    destruct (String.prefix (base (config env)) u) eqn:Hpre.
    + now apply prefix_split.
    + reflexivity.
  - intros Hno.
    assert (Hkeep : resourcePath (base (config env)) u = u).
    { rewrite resourcePath_prefix, Hno. reflexivity. }
    split; [exact Hkeep|]. unfold resolveSource. now rewrite Hkeep.
  - intros Hown.
    assert (Hkeep : resourcePath (base (config env)) u = u).
    { rewrite resourcePath_prefix. destruct Hown as [Hno|Hempty].
      - now rewrite Hno.
      - rewrite Hempty. now destruct (String.prefix "" u). }
    split; [exact Hkeep|]. rewrite Hkey. unfold resolveSource. now rewrite Hkeep.
Qed.

(** C5. Step 2 of the resolution: the candidate key, the reference URL
    after base-path stripping, is looked up among the registry's records
    by name, and the record found gives the content, the [source] of an
    asset and the [code] of a chunk, with no warning. *)
Theorem registry_lookup_returns_content (env : Env) (u : string) (t : OutputItem) :
  keyedByFileName (bundle env) ->
  JsObject.get (resourcePath (base (config env)) u) (bundle env) = Some t ->
  findItem (bundle env) (resourcePath (base (config env)) u) = Some t /\
  resolveSource resolve env u = (Some (content t), []) /\
  content t = match t with
              | OutputAsset _ source => source
              | OutputChunk _ code => Text code
              end.
Proof.
  intros Hkeyed Hget.
  assert (Hfind : findItem (bundle env) (resourcePath (base (config env)) u) = Some t).
  { now rewrite findItem_keyed. }
  split; [exact Hfind|]. split.
  - unfold resolveSource. now apply resolveKey_found.
  - reflexivity.
Qed.

(** C3. An element whose reference resolves to a name that is neither in
    the registry nor readable under the output directory: the call
    returns normally, so the document's rewriting is not rejected on its
    account, logs the warning, leaves the [integrity] attribute as it was
    (absent when it was absent), gives [crossorigin] its default when it
    was absent and touches no other attribute. *)
Theorem unresolved_reference_is_not_fatal (env : Env) (e : Element) (u : string) :
  resourceUrl e = Some u ->
  findItem (bundle env) (resourcePath (base (config env)) u) = None ->
  readFallback resolve env (resourcePath (base (config env)) u) = None ->
  exists e',
    calculateIntegrityHashes resolve env e
    = Some (e', [warning (resourcePath (base (config env)) u)]) /\
    name e' = name e /\
    JsObject.get "integrity" (attribs e') = JsObject.get "integrity" (attribs e) /\
    JsObject.get "crossorigin" (attribs e')
    = Some (match JsObject.get "crossorigin" (attribs e) with
            | Some v => v
            | None => "anonymous"
            end) /\
    (forall k, k <> "crossorigin" ->
               JsObject.get k (attribs e') = JsObject.get k (attribs e)) /\
    (forall sel, rejected (snd (visit resolve env sel e)) = false).
Proof.
  intros Hurl Hreg Hfs.
  assert (Hsrc : resolveSource resolve env u
                 = (None, [warning (resourcePath (base (config env)) u)])).
  { unfold resolveSource. rewrite (resolveKey_missing resolve env _ Hreg), Hfs.
    reflexivity. }
  rewrite (calculateIntegrityHashes_url resolve env e u Hurl), Hsrc.
  eexists. split; [reflexivity|]. cbn [name attribs fst snd setIntegrity].
  split; [reflexivity|]. split; [|split; [|split]].
  - rewrite get_setCrossorigin. reflexivity.
  - rewrite get_setCrossorigin. reflexivity.
  - intros k Hk. rewrite get_setCrossorigin.
    destruct (String.eqb_spec k "crossorigin"); [contradiction|reflexivity].
  - intros sel. unfold visit. destruct (sel e); [|reflexivity].
    rewrite (calculateIntegrityHashes_url resolve env e u Hurl). reflexivity.
Qed.

End Resolution.

Lemma base_path_is_a_pure_prefix_match_witness :
  (String.prefix "/" "assets/app.js" = false /\
   resourcePath "/" "/assets/app.js" = "assets/app.js" /\
   resourcePath "/" "assets/app.js" = "assets/app.js" /\
   resolveSource Demo.joinPath
     (mkEnv Demo.cfg Demo.legacyPass Demo.noFiles (Some "dist")) "/assets/app.js"
   = resolveSource Demo.joinPath
       (mkEnv Demo.cfg Demo.legacyPass Demo.noFiles (Some "dist")) "assets/app.js") /\
  resolveSource Demo.joinPath
    (mkEnv (mkConfig "" "/project" "dist") Demo.legacyPass Demo.noFiles (Some "dist"))
    "assets/legacy.js"
  = resolveKey Demo.joinPath
      (mkEnv (mkConfig "" "/project" "dist") Demo.legacyPass Demo.noFiles (Some "dist"))
      "assets/legacy.js".
Proof.
  split.
  - pose proof (base_path_is_a_pure_prefix_match Demo.joinPath
                  (mkEnv Demo.cfg Demo.legacyPass Demo.noFiles (Some "dist"))
                  "assets/app.js") as [[H1 _] [_ [H3 H4]]].
    split; [reflexivity|]. split; [exact H1|].
    split; [exact (proj1 (H3 eq_refl)) | exact (proj2 (H4 (or_introl eq_refl)))].
  - exact (proj2 (proj1 (base_path_is_a_pure_prefix_match Demo.joinPath
             (mkEnv (mkConfig "" "/project" "dist") Demo.legacyPass Demo.noFiles
                    (Some "dist"))
             "assets/legacy.js"))).
Defined.

(** C4, as stated, fails at a protocol-relative URL.  Under the base
    path [/] the URL [//a.js] starts with the base path, and the URL with
    the prefix stripped is [/a.js]; the first has candidate key [/a.js],
    which the registry does not hold, the second has candidate key [a.js],
    which it holds. *)
Lemma protocol_relative_url_is_stripped_once :
  String.prefix "/" "//a.js" = true /\
  "//a.js" = ("/" ++ "/a.js")%string /\
  resolveSource Demo.joinPath
    (mkEnv Demo.cfg [("a.js", OutputChunk "a.js" "export{}")] Demo.noFiles (Some "dist"))
    "//a.js"
  = (None, ["cannot find /a.js in output bundle."]) /\
  resolveSource Demo.joinPath
    (mkEnv Demo.cfg [("a.js", OutputChunk "a.js" "export{}")] Demo.noFiles (Some "dist"))
    "/a.js"
  = (Some (Text "export{}"), []).
Proof. repeat split; reflexivity. Qed.

Lemma registry_lookup_returns_content_witness :
  resolveSource Demo.joinPath
    (mkEnv Demo.cfg Demo.legacyPass Demo.noFiles (Some "dist")) "/assets/legacy.js"
  = (Some (Text "console.log(1)"), []).
Proof.
  refine (proj1 (proj2 (registry_lookup_returns_content Demo.joinPath
            (mkEnv Demo.cfg Demo.legacyPass Demo.noFiles (Some "dist"))
            "/assets/legacy.js" (OutputChunk "assets/legacy.js" "console.log(1)") _ _))).
  - intros k v [H|[]]. inversion H. reflexivity.
  - reflexivity.
Defined.

Lemma unresolved_reference_is_not_fatal_witness :
  exists e',
    calculateIntegrityHashes Demo.joinPath
      (mkEnv Demo.cfg Demo.legacyPass Demo.noFiles (Some "dist"))
      (Demo.script "/assets/missing.js")
    = Some (e', ["cannot find assets/missing.js in output bundle."]) /\
    JsObject.get "integrity" (attribs e') = None /\
    JsObject.get "crossorigin" (attribs e') = Some "anonymous".
Proof.
  destruct (unresolved_reference_is_not_fatal Demo.joinPath
              (mkEnv Demo.cfg Demo.legacyPass Demo.noFiles (Some "dist"))
              (Demo.script "/assets/missing.js") "/assets/missing.js"
              eq_refl eq_refl eq_refl) as (e' & Hcall & _ & Hint & Hcross & _ & _).
  exists e'. split; [exact Hcall|]. split; [exact Hint | exact Hcross].
Defined.

(* ================================================================== *)
(** ** The registry across emission events *)
(* ================================================================== *)

Section Registry.

Implicit Types (reg emitted : OutputBundle) (k : string).

Lemma merge_cons reg emitted k (v : OutputItem) :
  merge reg ((k, v) :: emitted) = merge (JsObject.set k v reg) emitted.
Proof. reflexivity. Qed.

Lemma get_merge_absent emitted : forall reg k,
  JsObject.get k emitted = None ->
  JsObject.get k (merge reg emitted) = JsObject.get k reg.
Proof.
  induction emitted as [|[k0 v0] emitted IH]; intros reg k Hnone; [reflexivity|].
  simpl in Hnone. rewrite merge_cons.
  destruct (String.eqb k k0) eqn:Hk; [discriminate|].
  rewrite (IH _ _ Hnone), get_set, Hk. reflexivity.
Qed.

(** A merge never removes a key. *)
Lemma has_merge_kept emitted : forall reg k,
  JsObject.has k reg = true -> JsObject.has k (merge reg emitted) = true.
Proof.
  induction emitted as [|[k0 v0] emitted IH]; intros reg k H; [exact H|].
  rewrite merge_cons. apply IH. rewrite has_set, H. apply orb_true_r.
Qed.


Lemma merge_keyed emitted : forall reg,
  keyedByFileName reg -> keyedByFileName emitted ->
  keyedByFileName (merge reg emitted).
Proof.
  induction emitted as [|[k0 v0] emitted IH]; intros reg Hreg Hem; [exact Hreg|].
  rewrite merge_cons. apply IH.
  - intros k v Hin. apply In_set in Hin as [Heq|Hin].
    + inversion Heq; subst. apply Hem. now left.
    + now apply Hreg.
  - intros k v Hin. apply Hem. now right.
Qed.

Lemma get_absent_keys emitted k :
  ~ In k (JsObject.keys emitted) -> JsObject.get k emitted = None.
Proof.
  intros Hnot. destruct (JsObject.get k emitted) eqn:Hget; [|reflexivity].
  elim Hnot. apply In_keys_has. unfold JsObject.has. now rewrite Hget.
Qed.

(** After a merge the registry holds what was emitted. *)
Lemma get_merge_emitted emitted : forall reg k v,
  NoDup (JsObject.keys emitted) -> In (k, v) emitted ->
  JsObject.get k (merge reg emitted) = Some v.
Proof.
  induction emitted as [|[k0 v0] emitted IH]; intros reg k v Hnd Hin; [contradiction|].
  simpl in Hnd. inversion Hnd as [|? ? Hfresh Hrest]; subst.
  rewrite merge_cons. destruct Hin as [Heq|Hin].
  - inversion Heq; subst.
    rewrite get_merge_absent by now apply get_absent_keys.
    rewrite get_set, String.eqb_refl. reflexivity.
  - now apply IH.
Qed.

Lemma merge_fixed emitted : forall reg,
  (forall k v, In (k, v) emitted -> JsObject.get k reg = Some v) ->
  merge reg emitted = reg.
Proof.
  induction emitted as [|[k0 v0] emitted IH]; intros reg Hall; [reflexivity|].
  rewrite merge_cons, set_same by (apply Hall; now left).
  apply IH. intros k v Hin. apply Hall. now right.
Qed.

(** Merging the same emitted bundle again leaves the registry as it is,
    order of the entries included. *)
Lemma merge_idempotent reg emitted :
  NoDup (JsObject.keys emitted) ->
  merge (merge reg emitted) emitted = merge reg emitted.
Proof.
  intros Hnd. apply merge_fixed. intros k v Hin.
  now apply get_merge_emitted.
Qed.

End Registry.

(* ================================================================== *)
(** ** The selection of the documents *)
(* ================================================================== *)

Section Selection.

Variable resolve : list string -> string.
Variable load : Content -> list Node.
Variable html : list Node -> string.

Lemma In_htmls (b : OutputBundle) (n : string) (source : Content) :
  In (n, source) (htmls b) <->
  exists k, In k (JsObject.keys b) /\ Js.endsWith k ".html" = true /\
            JsObject.get k b = Some (OutputAsset n source).
Proof.
  unfold htmls. rewrite in_flat_map. split.
  - intros (item & Hitem & Hin).
    apply in_map_iff in Hitem as (k & Hk & Hfil).
    apply filter_In in Hfil as [Hkeys Hends].
    destruct item as [x|]; [|contradiction].
    destruct Hin as [->|[]].
    exists k. repeat split; try assumption.
    unfold htmlOf in Hk.
    destruct (JsObject.get k b) as [[f s|f c]|]; try discriminate.
    now inversion Hk.
  - intros (k & Hkeys & Hends & Hget).
    exists (Some (n, source)). split; [|now left].
    apply in_map_iff. exists k. split.
    + unfold htmlOf. now rewrite Hget.
    + apply filter_In. now split.
Qed.

(** Every [writeFileSync] of the hook is for a selected document. *)
Lemma written_selected (env : Env) (n markup : string) :
  In (n, markup) (written (rewriteAll resolve load html env)) ->
  exists source, In (n, source) (htmls (bundle env)).
Proof.
  unfold written, rewriteAll. rewrite in_flat_map.
  intros ([n' [out t]] & Hin & Hw).
  apply in_map_iff in Hin as ([n0 src] & Heq & Hin). simpl in Heq.
  inversion Heq; subst. simpl in Hw.
  destruct out as [m|]; [|contradiction].
  destruct Hw as [Hw|[]]. inversion Hw; subst.
  now exists src.
Qed.



End Selection.

(** Closes [keyedByFileName] on a bundle given by its entries. *)
Ltac keyed_by_entries :=
  let k := fresh "k" in
  let v := fresh "v" in
  let Hin := fresh "Hin" in
  let Heq := fresh "Heq" in
  intros k v Hin; simpl in Hin;
  repeat (destruct Hin as [Heq|Hin]; [inversion Heq; reflexivity|]);
  contradiction.


(* ================================================================== *)
(** ** The hook across two passes *)
(* ================================================================== *)

Section Hook.

Variable resolve : list string -> string.
Variable load : Content -> list Node.
Variable html : list Node -> string.

(** The environment the documents of a call are rewritten in. *)
Lemma writeBundle_bundle (s : State) (d : option string) (emitted : OutputBundle) :
  st_bundle (writeBundle resolve load html s d emitted) = merge (st_bundle s) emitted.
Proof. reflexivity. Qed.


(** C7. Rewriting is a function of the registry, the configuration and
    the disk, and handing the hook the same bundle again does not change
    the registry: a second call, on the disk as the first call found it,
    leaves the same registry, computes the same markup for every document
    and leaves the same files. *)
Theorem rewriting_twice_gives_the_same_output
    (s : State) (d : option string) (emitted : OutputBundle) :
  NoDup (JsObject.keys emitted) ->
  st_bundle
    (writeBundle resolve load html
       (mkState (st_config s) (st_bundle (writeBundle resolve load html s d emitted))
                (st_files s) (st_log (writeBundle resolve load html s d emitted)))
       d emitted)
  = st_bundle (writeBundle resolve load html s d emitted) /\
  rewriteAll resolve load html
    (mkEnv (st_config s)
           (merge (st_bundle (writeBundle resolve load html s d emitted)) emitted)
           (st_files s) d)
  = rewriteAll resolve load html
      (mkEnv (st_config s) (merge (st_bundle s) emitted) (st_files s) d) /\
  st_files
    (writeBundle resolve load html
       (mkState (st_config s) (st_bundle (writeBundle resolve load html s d emitted))
                (st_files s) (st_log (writeBundle resolve load html s d emitted)))
       d emitted)
  = st_files (writeBundle resolve load html s d emitted).
Proof.
  intros Hnd. unfold writeBundle. cbn [st_bundle st_config st_files st_log].
  rewrite (merge_idempotent (st_bundle s) emitted Hnd).
  repeat split; reflexivity.
Qed.

End Hook.


Lemma rewriting_twice_gives_the_same_output_witness :
  NoDup (JsObject.keys Demo.modernPass) /\
  st_files
    (writeBundle Demo.joinPath Demo.loadPage Demo.renderAll
       (mkState Demo.cfg
          (st_bundle (writeBundle Demo.joinPath Demo.loadPage Demo.renderAll
                        (mkState Demo.cfg Demo.legacyPass Demo.noFiles [])
                        (Some "dist") Demo.modernPass))
          Demo.noFiles
          (st_log (writeBundle Demo.joinPath Demo.loadPage Demo.renderAll
                     (mkState Demo.cfg Demo.legacyPass Demo.noFiles [])
                     (Some "dist") Demo.modernPass)))
       (Some "dist") Demo.modernPass)
  = st_files
      (writeBundle Demo.joinPath Demo.loadPage Demo.renderAll
         (mkState Demo.cfg Demo.legacyPass Demo.noFiles [])
         (Some "dist") Demo.modernPass).
Proof.
  assert (Hnd : NoDup (JsObject.keys Demo.modernPass)).
  { repeat constructor; simpl; intuition discriminate. }
  split; [exact Hnd|].
  exact (proj2 (proj2 (rewriting_twice_gives_the_same_output
           Demo.joinPath Demo.loadPage Demo.renderAll
           (mkState Demo.cfg Demo.legacyPass Demo.noFiles [])
           (Some "dist") Demo.modernPass Hnd))).
Defined.

(* ================================================================== *)
(** ** The document pass *)
(* ================================================================== *)

(** Induction on a tree, with the hypothesis for every child. *)
Lemma Node_forall_ind (P : Node -> Prop) :
  (forall k d, P (Leaf k d)) ->
  (forall e cs, Forall P cs -> P (Tag e cs)) ->
  forall n, P n.
Proof.
  intros HLeaf HTag. fix go 1. intros [k d|e cs].
  - apply HLeaf.
  - apply HTag. induction cs as [|c r IH]; constructor; [apply go | exact IH].
Qed.

Section Frame.

Variable resolve : list string -> string.

Lemma pass_Tag (env : Env) (sel : Element -> bool) (e : Element) (cs : list Node) :
  pass resolve env sel (Tag e cs) =
  (Tag (fst (visit resolve env sel e)) (fst (passAll resolve env sel cs)),
   appTrace (snd (visit resolve env sel e)) (snd (passAll resolve env sel cs))).
Proof.
  cbn [pass]. destruct (visit resolve env sel e) as [e' t]. cbn [fst snd].
  match goal with
  | |- (let '(cs', ts) := ?inner cs in _) = _ =>
      assert (Hinner : inner cs = passAll resolve env sel cs)
  end.
  { induction cs as [|c r IH]; [reflexivity|].
    cbn [passAll]. rewrite <- IH. reflexivity. }
  rewrite Hinner. now destruct (passAll resolve env sel cs).
Qed.

Lemma passAll_cons (env : Env) (sel : Element -> bool) (c : Node) (r : list Node) :
  passAll resolve env sel (c :: r) =
  (fst (pass resolve env sel c) :: fst (passAll resolve env sel r),
   appTrace (snd (pass resolve env sel c)) (snd (passAll resolve env sel r))).
Proof.
  cbn [passAll]. destruct (pass resolve env sel c), (passAll resolve env sel r).
  reflexivity.
Qed.

Lemma filter_replace_sri (k v : string) (a : JsObject.t string) :
  isSriAttribute k = true ->
  filter (fun kv => negb (isSriAttribute (fst kv))) (JsObject.replace k v a)
  = filter (fun kv => negb (isSriAttribute (fst kv))) a.
Proof.
  intros Hk. induction a as [|[k0 v0] a IH]; [reflexivity|].
  cbn [JsObject.replace]. destruct (String.eqb_spec k k0) as [Heq|Hne].
  - subst k0. cbn [filter fst]. rewrite Hk. reflexivity.
  - cbn [filter fst]. rewrite IH. reflexivity.
Qed.

Lemma filter_insertNew_sri (k v : string) (a : JsObject.t string) :
  isSriAttribute k = true ->
  filter (fun kv => negb (isSriAttribute (fst kv))) (JsObject.insertNew k v a)
  = filter (fun kv => negb (isSriAttribute (fst kv))) a.
Proof.
  intros Hk. induction a as [|[k0 v0] a IH].
  - cbn [JsObject.insertNew filter fst]. rewrite Hk. reflexivity.
  - cbn [JsObject.insertNew]. destruct (JsObject.before k k0).
    + cbn [filter fst]. rewrite Hk. reflexivity.
    + cbn [filter fst]. rewrite IH. reflexivity.
Qed.

Lemma filter_set_sri (k v : string) (a : JsObject.t string) :
  isSriAttribute k = true ->
  filter (fun kv => negb (isSriAttribute (fst kv))) (JsObject.set k v a)
  = filter (fun kv => negb (isSriAttribute (fst kv))) a.
Proof.
  intros Hk. unfold JsObject.set. destruct (JsObject.has k a).
  - now apply filter_replace_sri.
  - now apply filter_insertNew_sri.
Qed.

(** The attributes a call writes are [integrity] and [crossorigin] only. *)
Lemma filter_mutation (source : option Content) (a : JsObject.t string) :
  filter (fun kv => negb (isSriAttribute (fst kv))) (setCrossorigin (setIntegrity source a))
  = filter (fun kv => negb (isSriAttribute (fst kv))) a.
Proof.
  unfold setCrossorigin.
  destruct (JsObject.get "crossorigin" (setIntegrity source a));
    [|rewrite filter_set_sri by reflexivity];
    unfold setIntegrity; destruct source as [c|]; try reflexivity;
    destruct (truthy (Some c)); try reflexivity;
    now apply filter_set_sri.
Qed.

Lemma has_mutation (source : option Content) (a : JsObject.t string) (k : string) :
  isSriAttribute k = false ->
  JsObject.has k (setCrossorigin (setIntegrity source a)) = JsObject.has k a.
Proof.
  unfold isSriAttribute. intros Hk. apply orb_false_elim in Hk as [Hi Hc].
  unfold JsObject.has. rewrite get_setCrossorigin, Hc, get_setIntegrity, Hi.
  reflexivity.
Qed.

(** A visit keeps the name of the element and the presence of its [src]
    and [href], so it is selected after the visit exactly when it was
    before. *)
Lemma visit_selection (env : Env) (sel : Element -> bool) (e : Element) :
  isScript (fst (visit resolve env sel e)) = isScript e /\
  isStylesheet (fst (visit resolve env sel e)) = isStylesheet e.
Proof.
  unfold visit. destruct (sel e); [|now split].
  unfold calculateIntegrityHashes.
  destruct (resourceUrl e) as [u|]; [|now split].
  destruct (resolveSource resolve env u) as [source w]. cbn [fst].
  unfold isScript, isStylesheet. cbn [name attribs].
  rewrite !has_mutation by reflexivity. now split.
Qed.

Lemma visit_erase (env : Env) (sel : Element -> bool) (e : Element) :
  (forall x, sel x = true -> eligible x = true) ->
  eraseElement (fst (visit resolve env sel e)) = eraseElement e.
Proof.
  intros Hsel. unfold eraseElement, eligible.
  destruct (visit_selection env sel e) as [-> ->].
  unfold visit. destruct (sel e) eqn:Hs; [|reflexivity].
  apply Hsel in Hs. unfold eligible in Hs. rewrite Hs.
  unfold calculateIntegrityHashes.
  destruct (resourceUrl e) as [u|]; [|reflexivity].
  destruct (resolveSource resolve env u) as [source w]. cbn [fst name attribs].
  now rewrite filter_mutation.
Qed.

Lemma pass_erase (env : Env) (sel : Element -> bool) :
  (forall x, sel x = true -> eligible x = true) ->
  forall n, erase (fst (pass resolve env sel n)) = erase n.
Proof.
  intros Hsel. induction n as [k d|e cs IH] using Node_forall_ind; [reflexivity|].
  rewrite pass_Tag. cbn [fst erase]. rewrite visit_erase by exact Hsel. f_equal.
  induction IH as [|c r Hc _ IHr]; [reflexivity|].
  rewrite passAll_cons. cbn [fst map]. now rewrite Hc, IHr.
Qed.

Lemma passAll_erase (env : Env) (sel : Element -> bool) :
  (forall x, sel x = true -> eligible x = true) ->
  forall doc, map erase (fst (passAll resolve env sel doc)) = map erase doc.
Proof.
  intros Hsel. induction doc as [|c r IH]; [reflexivity|].
  rewrite passAll_cons. cbn [fst map]. now rewrite pass_erase, IH.
Qed.

Lemma rewriteDom_fst (env : Env) (doc : list Node) :
  fst (rewriteDom resolve env doc)
  = fst (passAll resolve env isStylesheet (fst (passAll resolve env isScript doc))).
Proof.
  unfold rewriteDom. destruct (passAll resolve env isScript doc) as [d1 t1].
  cbn [fst]. now destruct (passAll resolve env isStylesheet d1).
Qed.

(** C8. The rewriter touches only the [script] elements that carry a
    [src] and the [link] elements that carry an [href], whatever the
    [rel] of the [link], and on them only the [integrity] and
    [crossorigin] attributes: once these two attributes are taken off the
    selected elements, the tree after the rewriting is the tree before it,
    with the same nodes in the same order, the same text, the same names
    and the same other attributes in the same order. *)
Theorem rewriter_writes_only_sri_attributes (env : Env) (doc : list Node) :
  map erase (fst (rewriteDom resolve env doc)) = map erase doc /\
  (forall e, eligible e =
             (String.eqb (name e) "script" && JsObject.has "src" (attribs e))
             || (String.eqb (name e) "link" && JsObject.has "href" (attribs e))) /\
  (forall e rel,
      isStylesheet (mkElement (name e) (JsObject.set "rel" rel (attribs e)))
      = isStylesheet e).
Proof.
  split; [|split].
  - rewrite rewriteDom_fst, !passAll_erase; [reflexivity| |];
      intros x Hx; unfold eligible; rewrite Hx; auto using orb_true_r.
  - reflexivity.
  - intros e rel. unfold isStylesheet. cbn [name attribs].
    now rewrite has_set.
Qed.

End Frame.

(* ================================================================== *)
(** ** The integrity and crossorigin attributes *)
(* ================================================================== *)

Section Attributes.

Variable resolve : list string -> string.

(** The [integrity] attribute after a call whose source is truthy. *)
Lemma integrity_of_resolved_content (env : Env) (e : Element) (u : string) (c : Content) :
  resourceUrl e = Some u ->
  fst (resolveSource resolve env u) = Some c ->
  truthy (Some c) = true ->
  exists e' w,
    calculateIntegrityHashes resolve env e = Some (e', w) /\
    JsObject.get "integrity" (attribs e') = Some (integrityOf c).
Proof.
  intros Hurl Hsrc Htruthy.
  rewrite (calculateIntegrityHashes_url resolve env e u Hurl), Hsrc.
  eexists _, _. split; [reflexivity|]. cbn [attribs].
  rewrite get_setCrossorigin. cbn [String.eqb Ascii.eqb Bool.eqb].
  rewrite get_setIntegrity, Htruthy. reflexivity.
Qed.

(** The [integrity] attribute after a call whose source is falsy. *)
Lemma integrity_kept_without_content (env : Env) (e : Element) (u : string) :
  resourceUrl e = Some u ->
  truthy (fst (resolveSource resolve env u)) = false ->
  exists e' w,
    calculateIntegrityHashes resolve env e = Some (e', w) /\
    JsObject.get "integrity" (attribs e') = JsObject.get "integrity" (attribs e).
Proof.
  intros Hurl Hfalsy.
  rewrite (calculateIntegrityHashes_url resolve env e u Hurl).
  eexists _, _. split; [reflexivity|]. cbn [attribs].
  rewrite get_setCrossorigin. cbn [String.eqb Ascii.eqb Bool.eqb].
  rewrite get_setIntegrity, Hfalsy, andb_false_r. reflexivity.
Qed.

(** C9, as the code has it.  When the resolved content is empty, what
    happens depends on its type.  An empty string (the code of a chunk,
    the source of an asset given as a string) is falsy: the [integrity]
    attribute is left as it was, as for an unresolved reference.  An empty
    byte array (a [Uint8Array] source, the [Buffer] read from disk) is an
    object and is truthy: the element gets the digest of the empty input.
    In both cases [crossorigin] gets its default when it was absent. *)
Theorem empty_string_content_is_not_hashed
    (env : Env) (e : Element) (u : string) (c : Content) :
  resourceUrl e = Some u ->
  fst (resolveSource resolve env u) = Some c ->
  bytes_of c = [] ->
  exists e' w,
    calculateIntegrityHashes resolve env e = Some (e', w) /\
    JsObject.get "integrity" (attribs e')
    = match c with
      | Text _ => JsObject.get "integrity" (attribs e)
      | Binary _ => Some (integrityOf c)
      end /\
    truthy (Some c) = match c with Text _ => truthy None | Binary _ => true end /\
    JsObject.get "crossorigin" (attribs e')
    = Some (match JsObject.get "crossorigin" (attribs e) with
            | Some v => v
            | None => "anonymous"
            end).
Proof.
  intros Hurl Hsrc Hempty.
  destruct (crossorigin_after resolve env e u Hurl) as (e1 & w1 & Hcall1 & Hcross).
  destruct c as [s|b].
  - apply list_byte_of_string_nil in Hempty. subst s.
    destruct (integrity_kept_without_content env e u Hurl) as (e2 & w2 & Hcall2 & Hint).
    { now rewrite Hsrc. }
    rewrite Hcall2 in Hcall1. inversion Hcall1; subst e1 w1.
    exists e2, w2. repeat split; assumption.
  - destruct (integrity_of_resolved_content env e u (Binary b) Hurl Hsrc eq_refl)
      as (e2 & w2 & Hcall2 & Hint).
    rewrite Hcall2 in Hcall1. inversion Hcall1; subst e1 w1.
    exists e2, w2. repeat split; assumption.
Qed.

End Attributes.

Lemma empty_string_content_is_not_hashed_witness :
  exists e' w,
    calculateIntegrityHashes Demo.joinPath
      (mkEnv Demo.cfg Demo.emptyChunkPass Demo.noFiles (Some "dist"))
      (Demo.script "/assets/empty.js") = Some (e', w) /\
    JsObject.get "integrity" (attribs e') = None /\
    JsObject.get "crossorigin" (attribs e') = Some "anonymous".
Proof.
  destruct (empty_string_content_is_not_hashed Demo.joinPath
              (mkEnv Demo.cfg Demo.emptyChunkPass Demo.noFiles (Some "dist"))
              (Demo.script "/assets/empty.js") "/assets/empty.js" (Text "")
              eq_refl eq_refl eq_refl) as (e' & w & Hcall & Hint & _ & Hcross).
  exists e', w. split; [exact Hcall|]. split; [exact Hint | exact Hcross].
Defined.

(** C9, as stated, fails for bytes read from disk.  The file
    [dist/assets/empty.css] exists and is empty, the registry does not
    track it; the [link] that refers to it gets the digest of the empty
    input as its [integrity]. *)
Lemma empty_file_read_from_disk_is_hashed :
  resolveSource Demo.joinPath
    (mkEnv Demo.cfg [] Demo.emptyFileOnDisk (Some "dist")) "/assets/empty.css"
  = (Some (Binary []), ["cannot find assets/empty.css in output bundle."]) /\
  calculateIntegrityHashes Demo.joinPath
    (mkEnv Demo.cfg [] Demo.emptyFileOnDisk (Some "dist"))
    (Demo.stylesheet "/assets/empty.css")
  = Some (mkElement "link"
            [("rel", "stylesheet"); ("href", "/assets/empty.css");
             ("integrity",
              "sha384-OLBgp1GsljhM2TJ+sbHjaiH9txEUvgdDTAzHv2P24donTt6/529l+9Ua0vFImLlb");
             ("crossorigin", "anonymous")],
          ["cannot find assets/empty.css in output bundle."]).
Proof. split; vm_compute; reflexivity. Qed.

(** C1 at a chunk with no code.  The registry holds [assets/empty.js]
    and the document refers to it by its bundled path under the base
    path; its content is the empty string, whose digest is the one below,
    and the element comes out with [crossorigin] and without [integrity]. *)
Theorem empty_chunk_gets_no_integrity (resolve : list string -> string) :
  findItem Demo.emptyChunkPass "assets/empty.js"
  = Some (OutputChunk "assets/empty.js" "") /\
  integrityOf (content (OutputChunk "assets/empty.js" ""))
  = "sha384-OLBgp1GsljhM2TJ+sbHjaiH9txEUvgdDTAzHv2P24donTt6/529l+9Ua0vFImLlb" /\
  calculateIntegrityHashes resolve
    (mkEnv Demo.cfg Demo.emptyChunkPass Demo.noFiles (Some "dist"))
    (Demo.script "/assets/empty.js")
  = Some (mkElement "script"
            [("src", "/assets/empty.js"); ("crossorigin", "anonymous")],
          []).
Proof. repeat split; vm_compute; reflexivity. Qed.

(** C6 at a [script] whose [src] is empty.  The element is selected, it
    has no [crossorigin]; the call on it throws before it writes anything,
    the document's rewriting is rejected and the hook writes no file. *)
Theorem empty_src_gets_no_crossorigin
    (resolve : list string -> string) (html : list Node -> string) (env : Env) :
  isScript (Demo.script "") = true /\
  JsObject.get "crossorigin" (attribs (Demo.script "")) = None /\
  calculateIntegrityHashes resolve env (Demo.script "") = None /\
  rewriteDocument resolve Demo.emptySrcPage html env (Text "")
  = (None, mkTrace [] true) /\
  written (rewriteAll resolve Demo.emptySrcPage html
             (mkEnv Demo.cfg Demo.emptySrcPass Demo.noFiles (Some "dist")))
  = [].
Proof. repeat split; reflexivity. Qed.

(* ================================================================== *)
(** ** Further properties: one element *)
(* ================================================================== *)

Section ElementProperties.

Variable resolve : list string -> string.

Lemma get_mutation (source : option Content) (a : JsObject.t string) (k : string) :
  isSriAttribute k = false ->
  JsObject.get k (setCrossorigin (setIntegrity source a)) = JsObject.get k a.
Proof.
  unfold isSriAttribute. intros Hk. apply orb_false_elim in Hk as [Hi Hc].
  rewrite get_setCrossorigin, Hc, get_setIntegrity, Hi. reflexivity.
Qed.

Lemma isSriAttribute_false (k : string) :
  k <> "integrity" -> k <> "crossorigin" -> isSriAttribute k = false.
Proof.
  intros Hi Hc. unfold isSriAttribute.
  destruct (String.eqb_spec k "integrity"); [contradiction|].
  destruct (String.eqb_spec k "crossorigin"); [contradiction|reflexivity].
Qed.

Lemma resolveSource_found (env : Env) (u : string) (t : OutputItem) :
  findItem (bundle env) (resourcePath (base (config env)) u) = Some t ->
  resolveSource resolve env u = (Some (content t), []).
Proof. intros H. unfold resolveSource. now apply resolveKey_found. Qed.

(** X1. A reference the registry tracks, with truthy content: the call
    logs nothing, whatever is on disk, and sets [integrity] to the digest
    of the record's content, replacing any value the attribute had; the
    name and the attributes other than [integrity] and [crossorigin] stay. *)
Theorem tracked_content_is_hashed (env : Env) (e : Element) (u : string) (t : OutputItem) :
  resourceUrl e = Some u ->
  findItem (bundle env) (resourcePath (base (config env)) u) = Some t ->
  truthy (Some (content t)) = true ->
  exists e',
    calculateIntegrityHashes resolve env e = Some (e', []) /\
    name e' = name e /\
    JsObject.get "integrity" (attribs e') = Some (integrityOf (content t)) /\
    (forall k, k <> "integrity" -> k <> "crossorigin" ->
               JsObject.get k (attribs e') = JsObject.get k (attribs e)).
Proof.
  intros Hurl Hfind Htruthy.
  rewrite (calculateIntegrityHashes_url resolve env e u Hurl),
    (resolveSource_found env u t Hfind).
  eexists. split; [reflexivity|]. cbn [name attribs fst snd].
  split; [reflexivity|]. split.
  - rewrite get_setCrossorigin. cbn [String.eqb Ascii.eqb Bool.eqb].
    rewrite get_setIntegrity, Htruthy. reflexivity.
  - intros k Hi Hc. apply get_mutation. now apply isSriAttribute_false.
Qed.

(** X2. A reference the registry does not track, while the file is
    readable under [options.dir]: the warning is logged all the same, and
    [integrity] is the digest of the bytes read, whatever their number. *)
Theorem untracked_file_on_disk_is_hashed
    (env : Env) (e : Element) (u d : string) (data : list byte) :
  resourceUrl e = Some u ->
  findItem (bundle env) (resourcePath (base (config env)) u) = None ->
  dir env = Some d ->
  files env (resolve [d; resourcePath (base (config env)) u]) = Some data ->
  exists e',
    calculateIntegrityHashes resolve env e
    = Some (e', [warning (resourcePath (base (config env)) u)]) /\
    JsObject.get "integrity" (attribs e') = Some (integrityOf (Binary data)).
Proof.
  intros Hurl Hfind Hdir Hfile.
  assert (Hsrc : resolveSource resolve env u
                 = (Some (Binary data), [warning (resourcePath (base (config env)) u)])).
  { unfold resolveSource. rewrite (resolveKey_missing resolve env _ Hfind).
    unfold readFallback. rewrite Hdir, Hfile. reflexivity. }
  rewrite (calculateIntegrityHashes_url resolve env e u Hurl), Hsrc.
  eexists. split; [reflexivity|]. cbn [attribs fst].
  rewrite get_setCrossorigin. cbn [String.eqb Ascii.eqb Bool.eqb].
  rewrite get_setIntegrity. reflexivity.
Qed.

(** The order of the attributes. *)

Lemma keys_replace {V : Type} (k : string) (v : V) (o : JsObject.t V) :
  JsObject.keys (JsObject.replace k v o) = JsObject.keys o.
Proof.
  induction o as [|[k0 v0] o IH]; [reflexivity|].
  cbn [JsObject.replace]. destruct (String.eqb k k0); cbn [JsObject.keys map fst].
  - reflexivity.
  - f_equal. exact IH.
Qed.

Lemma insertNew_name {V : Type} (k : string) (v : V) (o : JsObject.t V) :
  JsObject.arrayIndex k = None -> JsObject.insertNew k v o = o ++ [(k, v)].
Proof.
  intros Hk. induction o as [|[k0 v0] o IH]; [reflexivity|].
  cbn [JsObject.insertNew]. unfold JsObject.before. rewrite Hk.
  cbn [app]. now rewrite IH.
Qed.

Lemma set_new_name {V : Type} (k : string) (v : V) (o : JsObject.t V) :
  JsObject.arrayIndex k = None -> JsObject.get k o = None ->
  JsObject.set k v o = o ++ [(k, v)].
Proof.
  intros Hk Hnone. unfold JsObject.set, JsObject.has. rewrite Hnone.
  now apply insertNew_name.
Qed.

Lemma keys_set_name {V : Type} (k : string) (v : V) (o : JsObject.t V) :
  JsObject.arrayIndex k = None ->
  JsObject.keys (JsObject.set k v o)
  = JsObject.keys o ++ (if JsObject.has k o then [] else [k]).
Proof.
  intros Hk. unfold JsObject.set. destruct (JsObject.has k o).
  - rewrite keys_replace, app_nil_r. reflexivity.
  - rewrite insertNew_name by exact Hk. unfold JsObject.keys.
    now rewrite map_app.
Qed.

(** X3. The order of the attributes after a call.  The attributes the
    element had keep their order; [integrity] is added after them when the
    source is truthy and the attribute was absent (a present one is
    overwritten in place), and [crossorigin] after that when it was absent. *)
Theorem attributes_are_appended (env : Env) (e : Element) (u : string) :
  resourceUrl e = Some u ->
  exists e' w,
    calculateIntegrityHashes resolve env e = Some (e', w) /\
    JsObject.keys (attribs e')
    = JsObject.keys (attribs e)
      ++ (if truthy (fst (resolveSource resolve env u))
             && negb (JsObject.has "integrity" (attribs e))
          then ["integrity"] else [])
      ++ (if JsObject.has "crossorigin" (attribs e) then [] else ["crossorigin"]).
Proof.
  intros Hurl. rewrite (calculateIntegrityHashes_url resolve env e u Hurl).
  eexists _, _. split; [reflexivity|]. cbn [attribs].
  destruct (resolveSource resolve env u) as [source w]. cbn [fst].
  assert (Hint : JsObject.keys (setIntegrity source (attribs e))
                 = JsObject.keys (attribs e)
                   ++ (if truthy source && negb (JsObject.has "integrity" (attribs e))
                       then ["integrity"] else [])).
  { unfold setIntegrity. destruct source as [c|].
    - destruct (truthy (Some c)).
      + rewrite keys_set_name by reflexivity.
        now destruct (JsObject.has "integrity" (attribs e)).
      + now rewrite app_nil_r.
    - now rewrite app_nil_r. }
  assert (Hhas : JsObject.has "crossorigin" (setIntegrity source (attribs e))
                 = JsObject.has "crossorigin" (attribs e)).
  { unfold JsObject.has. now rewrite get_setIntegrity. }
  unfold setCrossorigin.
  destruct (JsObject.get "crossorigin" (setIntegrity source (attribs e))) as [v|] eqn:Hc.
  - unfold JsObject.has in Hhas. rewrite Hc in Hhas.
    unfold JsObject.has at 2. destruct (JsObject.get "crossorigin" (attribs e)); [|discriminate].
    now rewrite Hint, app_nil_r.
  - rewrite keys_set_name by reflexivity.
    unfold JsObject.has in Hhas |- *. rewrite Hc in Hhas |- *.
    destruct (JsObject.get "crossorigin" (attribs e)); [discriminate|].
    now rewrite Hint, <- app_assoc.
Qed.

End ElementProperties.

Section ElementStability.

Variable resolve : list string -> string.

Lemma resourceUrl_mutation (source : option Content) (e : Element) :
  resourceUrl (mkElement (name e) (setCrossorigin (setIntegrity source (attribs e))))
  = resourceUrl e.
Proof.
  unfold resourceUrl, attributeName. cbn [attribs].
  rewrite (get_mutation source (attribs e) "src") by reflexivity.
  destruct (JsObject.get "src" (attribs e)) as [s|].
  - destruct (Js.truthy_string s); now apply get_mutation.
  - now apply get_mutation.
Qed.

Lemma mutation_twice (source : option Content) (a : JsObject.t string) :
  setCrossorigin (setIntegrity source (setCrossorigin (setIntegrity source a)))
  = setCrossorigin (setIntegrity source a).
Proof.
  assert (Hint : setIntegrity source (setCrossorigin (setIntegrity source a))
                 = setCrossorigin (setIntegrity source a)).
  { unfold setIntegrity at 1. destruct source as [c|]; [|reflexivity].
    destruct (truthy (Some c)) eqn:Ht; [|reflexivity].
    apply set_same. rewrite get_setCrossorigin. cbn [String.eqb Ascii.eqb Bool.eqb].
    rewrite get_setIntegrity, Ht. reflexivity. }
  rewrite Hint. unfold setCrossorigin at 1.
  rewrite get_setCrossorigin. reflexivity.
Qed.

Lemma calculateIntegrityHashes_again (env : Env) (e e' : Element) (w : list string) :
  calculateIntegrityHashes resolve env e = Some (e', w) ->
  calculateIntegrityHashes resolve env e' = Some (e', w).
Proof.
  unfold calculateIntegrityHashes.
  destruct (resourceUrl e) as [u|] eqn:Hurl; [|discriminate].
  destruct (resolveSource resolve env u) as [source w0] eqn:Hsrc.
  intros H. inversion H; subst e' w.
  rewrite resourceUrl_mutation, Hurl, Hsrc. cbn [name attribs].
  now rewrite mutation_twice.
Qed.

(** X4. A call on the element another call left behind changes nothing:
    it returns the same element and logs the same warnings. *)
Theorem second_call_changes_nothing (env : Env) (e e' : Element) (w : list string) :
  calculateIntegrityHashes resolve env e = Some (e', w) ->
  calculateIntegrityHashes resolve env e' = Some (e', w) /\
  resourceUrl e' = resourceUrl e.
Proof.
  intros H. split; [now apply (calculateIntegrityHashes_again env e)|].
  unfold calculateIntegrityHashes in H.
  destruct (resourceUrl e) as [u|] eqn:Hurl; [|discriminate].
  destruct (resolveSource resolve env u) as [source w0].
  inversion H; subst e' w. rewrite resourceUrl_mutation. exact Hurl.
Qed.

Lemma calculateIntegrityHashes_none (env : Env) (e : Element) :
  calculateIntegrityHashes resolve env e = None <-> resourceUrl e = None.
Proof.
  unfold calculateIntegrityHashes. destruct (resourceUrl e) as [u|].
  - destruct (resolveSource resolve env u). split; discriminate.
  - split; reflexivity.
Qed.

(** X5. When a call on a selected element throws.  A [link] with an
    [href] never makes it throw; a [script] with a [src] does exactly when
    the [src] is empty and there is no [href]. *)
Theorem call_throws_on_empty_src_only (env : Env) (e : Element) :
  eligible e = true ->
  (calculateIntegrityHashes resolve env e = None <->
   JsObject.get "src" (attribs e) = Some "" /\ JsObject.get "href" (attribs e) = None) /\
  (isStylesheet e = true -> calculateIntegrityHashes resolve env e <> None).
Proof.
  intros Hel.
  assert (Hchar : resourceUrl e = None <->
                  JsObject.get "src" (attribs e) = Some ""
                  /\ JsObject.get "href" (attribs e) = None).
  { unfold eligible, isScript, isStylesheet, JsObject.has in Hel.
    unfold resourceUrl, attributeName.
    destruct (JsObject.get "src" (attribs e)) as [s|] eqn:Hsrc.
    - unfold Js.truthy_string. destruct (String.eqb_spec s "") as [->|Hne]; cbn [negb].
      + split; [intros H; now split | intros [_ H]; exact H].
      + rewrite Hsrc. split; [discriminate|]. intros [H _]. congruence.
    - rewrite andb_false_r in Hel. cbn [orb] in Hel.
      apply andb_prop in Hel as [_ Hhref].
      destruct (JsObject.get "href" (attribs e)); [|discriminate].
      split; [discriminate | intros [H _]; discriminate]. }
  split.
  - rewrite calculateIntegrityHashes_none. exact Hchar.
  - intros Hlink Hnone. apply calculateIntegrityHashes_none, Hchar in Hnone as [_ Hhref].
    unfold isStylesheet, JsObject.has in Hlink. rewrite Hhref, andb_false_r in Hlink.
    discriminate.
Qed.

End ElementStability.

(* ================================================================== *)
(** ** Further properties: the document pass *)
(* ================================================================== *)

Section DocumentProperties.

Variable resolve : list string -> string.
Variable load : Content -> list Node.
Variable html : list Node -> string.

Lemma scripts_are_not_stylesheets (e : Element) :
  isScript e = true -> isStylesheet e = false.
Proof.
  unfold isScript, isStylesheet. intros H. apply andb_prop in H as [Hname _].
  apply String.eqb_eq in Hname. rewrite Hname. reflexivity.
Qed.

Lemma visit_unselected (env : Env) (sel : Element -> bool) (e : Element) :
  sel e = false -> visit resolve env sel e = (e, noTrace).
Proof. unfold visit. now intros ->. Qed.

(** A pass over a tree two passes have been over, element by element. *)
Lemma pass_after_passes (env : Env) (A B C D : Element -> bool) :
  (forall e,
      visit resolve env C (fst (visit resolve env B (fst (visit resolve env A e))))
      = (fst (visit resolve env B (fst (visit resolve env A e))),
         snd (visit resolve env D e))) ->
  forall n,
    pass resolve env C (fst (pass resolve env B (fst (pass resolve env A n))))
    = (fst (pass resolve env B (fst (pass resolve env A n))), snd (pass resolve env D n)).
Proof.
  intros Hel. induction n as [k d|e cs IH] using Node_forall_ind; [reflexivity|].
  rewrite (pass_Tag resolve env A), (pass_Tag resolve env D). cbn [fst snd].
  rewrite (pass_Tag resolve env B). cbn [fst snd].
  rewrite pass_Tag, Hel. cbn [fst snd].
  assert (Hcs : passAll resolve env C
                  (fst (passAll resolve env B (fst (passAll resolve env A cs))))
                = (fst (passAll resolve env B (fst (passAll resolve env A cs))),
                   snd (passAll resolve env D cs))).
  { induction IH as [|c r Hc _ IHr]; [reflexivity|].
    rewrite (passAll_cons resolve env A), (passAll_cons resolve env D). cbn [fst snd].
    rewrite (passAll_cons resolve env B). cbn [fst snd].
    rewrite passAll_cons, Hc, IHr. reflexivity. }
  rewrite Hcs. reflexivity.
Qed.

Lemma passAll_after_passes (env : Env) (A B C D : Element -> bool) :
  (forall e,
      visit resolve env C (fst (visit resolve env B (fst (visit resolve env A e))))
      = (fst (visit resolve env B (fst (visit resolve env A e))),
         snd (visit resolve env D e))) ->
  forall doc,
    passAll resolve env C (fst (passAll resolve env B (fst (passAll resolve env A doc))))
    = (fst (passAll resolve env B (fst (passAll resolve env A doc))),
       snd (passAll resolve env D doc)).
Proof.
  intros Hel. induction doc as [|c r IH]; [reflexivity|].
  rewrite (passAll_cons resolve env A), (passAll_cons resolve env D). cbn [fst snd].
  rewrite (passAll_cons resolve env B). cbn [fst snd].
  rewrite passAll_cons, (pass_after_passes env A B C D Hel), IH. reflexivity.
Qed.

(** A pass with a selection that selects nothing. *)
Lemma pass_nothing (env : Env) (n : Node) : pass resolve env nothing n = (n, noTrace).
Proof.
  induction n as [k d|e cs IH] using Node_forall_ind; [reflexivity|].
  rewrite pass_Tag. cbn [visit nothing fst snd].
  assert (Hcs : passAll resolve env nothing cs = (cs, noTrace)).
  { induction IH as [|c r Hc _ IHr]; [reflexivity|].
    rewrite passAll_cons, Hc, IHr. reflexivity. }
  rewrite Hcs. reflexivity.
Qed.

Lemma passAll_nothing (env : Env) (doc : list Node) :
  passAll resolve env nothing doc = (doc, noTrace).
Proof.
  induction doc as [|c r IH]; [reflexivity|].
  rewrite passAll_cons, pass_nothing, IH. reflexivity.
Qed.

(** A visit of an element that was already visited with the same selection. *)
Lemma visit_again (env : Env) (sel : Element -> bool) (e : Element) :
  sel (fst (visit resolve env sel e)) = sel e ->
  visit resolve env sel (fst (visit resolve env sel e))
  = (fst (visit resolve env sel e), snd (visit resolve env sel e)).
Proof.
  intros Hsel. destruct (sel e) eqn:Hs.
  - destruct (calculateIntegrityHashes resolve env e) as [[e' w]|] eqn:Hcall.
    + assert (Hv : visit resolve env sel e = (e', mkTrace w false)).
      { unfold visit. now rewrite Hs, Hcall. }
      rewrite Hv in Hsel |- *. cbn [fst snd] in Hsel |- *.
      unfold visit. rewrite Hsel.
      now rewrite (calculateIntegrityHashes_again resolve env e e' w Hcall).
    + assert (Hv : visit resolve env sel e = (e, mkTrace [] true)).
      { unfold visit. now rewrite Hs, Hcall. }
      rewrite Hv. cbn [fst snd]. exact Hv.
  - rewrite (visit_unselected env sel e Hs). cbn [fst snd].
    now apply visit_unselected.
Qed.

Lemma visit_script_again (env : Env) (e : Element) :
  visit resolve env isScript (fst (visit resolve env isScript e))
  = (fst (visit resolve env isScript e), snd (visit resolve env isScript e)).
Proof. apply visit_again. apply visit_selection. Qed.

Lemma visit_stylesheet_again (env : Env) (e : Element) :
  visit resolve env isStylesheet (fst (visit resolve env isStylesheet e))
  = (fst (visit resolve env isStylesheet e), snd (visit resolve env isStylesheet e)).
Proof. apply visit_again. apply visit_selection. Qed.

Lemma visit_script_after_both (env : Env) (e : Element) :
  visit resolve env isScript
    (fst (visit resolve env isStylesheet (fst (visit resolve env isScript e))))
  = (fst (visit resolve env isStylesheet (fst (visit resolve env isScript e))),
     snd (visit resolve env isScript e)).
Proof.
  destruct (isScript e) eqn:Hs.
  - assert (Hl : isStylesheet (fst (visit resolve env isScript e)) = false).
    { rewrite (proj2 (visit_selection resolve env isScript e)).
      now apply scripts_are_not_stylesheets. }
    rewrite (visit_unselected env isStylesheet _ Hl). cbn [fst].
    apply visit_script_again.
  - rewrite (visit_unselected env isScript e Hs). cbn [fst snd].
    apply visit_unselected.
    rewrite (proj1 (visit_selection resolve env isStylesheet e)). exact Hs.
Qed.

Lemma rewriteDom_pair (env : Env) (doc : list Node) :
  rewriteDom resolve env doc
  = (fst (passAll resolve env isStylesheet (fst (passAll resolve env isScript doc))),
     appTrace (snd (passAll resolve env isScript doc))
       (snd (passAll resolve env isStylesheet (fst (passAll resolve env isScript doc))))).
Proof.
  unfold rewriteDom. destruct (passAll resolve env isScript doc) as [d1 t1].
  cbn [fst snd]. now destruct (passAll resolve env isStylesheet d1).
Qed.

(** X6. Rewriting the tree the rewriter left behind changes nothing: the
    same tree comes out, with the same warnings and the same outcome. *)
Theorem rewriting_the_result_changes_nothing (env : Env) (doc : list Node) :
  rewriteDom resolve env (fst (rewriteDom resolve env doc)) = rewriteDom resolve env doc.
Proof.
  rewrite (rewriteDom_pair env doc). cbn [fst].
  rewrite rewriteDom_pair.
  rewrite (passAll_after_passes env isScript isStylesheet isScript isScript
             (visit_script_after_both env) doc).
  cbn [fst snd].
  pose proof (passAll_after_passes env nothing isStylesheet isStylesheet isStylesheet) as Hl.
  specialize (Hl (fun e => visit_stylesheet_again env e)
                 (fst (passAll resolve env isScript doc))).
  rewrite passAll_nothing in Hl. cbn [fst] in Hl.
  rewrite Hl. reflexivity.
Qed.




(** When a pass is rejected. *)
Lemma visit_rejected (env : Env) (sel : Element -> bool) (e : Element) :
  rejected (snd (visit resolve env sel e)) = sel e && hasNoUrl e.
Proof.
  unfold visit, hasNoUrl, calculateIntegrityHashes. destruct (sel e); [|reflexivity].
  destruct (resourceUrl e) as [u|]; [|reflexivity].
  now destruct (resolveSource resolve env u).
Qed.

Lemma pass_rejected (env : Env) (sel : Element -> bool) (n : Node) :
  rejected (snd (pass resolve env sel n))
  = existsElement (fun e => sel e && hasNoUrl e) n.
Proof.
  induction n as [k d|e cs IH] using Node_forall_ind; [reflexivity|].
  rewrite pass_Tag. cbn [snd appTrace rejected existsElement].
  rewrite visit_rejected. f_equal.
  induction IH as [|c r Hc _ IHr]; [reflexivity|].
  rewrite passAll_cons. cbn [snd appTrace rejected existsb]. now rewrite Hc, IHr.
Qed.

Lemma passAll_rejected (env : Env) (sel : Element -> bool) (doc : list Node) :
  rejected (snd (passAll resolve env sel doc))
  = existsb (existsElement (fun e => sel e && hasNoUrl e)) doc.
Proof.
  induction doc as [|c r IH]; [reflexivity|].
  rewrite passAll_cons. cbn [snd appTrace rejected existsb].
  now rewrite pass_rejected, IH.
Qed.

Lemma stylesheets_have_a_url (e : Element) : isStylesheet e && hasNoUrl e = false.
Proof.
  destruct (isStylesheet e) eqn:Hl; [|reflexivity]. cbn [andb].
  unfold isStylesheet, JsObject.has in Hl. apply andb_prop in Hl as [_ Hhref].
  unfold hasNoUrl, resourceUrl, attributeName.
  destruct (JsObject.get "src" (attribs e)) as [s|] eqn:Hsrc.
  - destruct (Js.truthy_string s).
    + now rewrite Hsrc.
    + destruct (JsObject.get "href" (attribs e)); [reflexivity|discriminate].
  - destruct (JsObject.get "href" (attribs e)); [reflexivity|discriminate].
Qed.

Lemma existsElement_false (p : Element -> bool) (n : Node) :
  (forall e, p e = false) -> existsElement p n = false.
Proof.
  intros Hp. induction n as [k d|e cs IH] using Node_forall_ind; [reflexivity|].
  cbn [existsElement]. rewrite Hp. cbn [orb].
  induction IH as [|c r Hc _ IHr]; [reflexivity|].
  cbn [existsb]. now rewrite Hc, IHr.
Qed.

(** X8. A document is written unless its tree holds a [script] whose
    [src] is there without a reference URL behind it: then, and only then,
    the rewriting is rejected and there is no markup to write. *)
Theorem document_is_written_unless_a_script_has_no_url (env : Env) (source : Content) :
  fst (rewriteDocument resolve load html env source)
  = if existsb (existsElement (fun e => isScript e && hasNoUrl e)) (load source)
    then None
    else Some (html (fst (rewriteDom resolve env (load source)))).
Proof.
  unfold rewriteDocument.
  assert (Hrej : rejected (snd (rewriteDom resolve env (load source)))
                 = existsb (existsElement (fun e => isScript e && hasNoUrl e)) (load source)).
  { rewrite rewriteDom_pair. cbn [snd appTrace rejected].
    rewrite !passAll_rejected.
    assert (Hnone : forall d,
               existsb (existsElement (fun e => isStylesheet e && hasNoUrl e)) d = false).
    { induction d as [|c r IH]; [reflexivity|]. cbn [existsb].
      rewrite IH, (existsElement_false _ c stylesheets_have_a_url). reflexivity. }
    rewrite Hnone. apply orb_false_r. }
  destruct (rewriteDom resolve env (load source)) as [d t]. cbn [fst snd] in *.
  now rewrite Hrej.
Qed.

(** A pass that selects no element of the tree. *)
Lemma pass_unselected (env : Env) (sel : Element -> bool) (n : Node) :
  existsElement sel n = false -> pass resolve env sel n = (n, noTrace).
Proof.
  induction n as [k d|e cs IH] using Node_forall_ind; [reflexivity|].
  cbn [existsElement]. intros H. apply orb_false_elim in H as [He Hcs].
  rewrite pass_Tag, (visit_unselected env sel e He). cbn [fst snd].
  assert (Hall : passAll resolve env sel cs = (cs, noTrace)).
  { induction IH as [|c r Hc _ IHr]; [reflexivity|].
    cbn [existsb] in Hcs. apply orb_false_elim in Hcs as [Hc' Hr'].
    rewrite passAll_cons, (Hc Hc'), (IHr Hr'). reflexivity. }
  rewrite Hall. reflexivity.
Qed.

Lemma passAll_unselected (env : Env) (sel : Element -> bool) (doc : list Node) :
  existsb (existsElement sel) doc = false -> passAll resolve env sel doc = (doc, noTrace).
Proof.
  induction doc as [|c r IH]; [reflexivity|].
  cbn [existsb]. intros H. apply orb_false_elim in H as [Hc Hr].
  rewrite passAll_cons, (pass_unselected env sel c Hc), (IH Hr). reflexivity.
Qed.

Lemma existsElement_weaken (p q : Element -> bool) (n : Node) :
  (forall e, p e = true -> q e = true) ->
  existsElement q n = false -> existsElement p n = false.
Proof.
  intros Hpq. induction n as [k d|e cs IH] using Node_forall_ind; [reflexivity|].
  cbn [existsElement]. intros H. apply orb_false_elim in H as [He Hcs].
  assert (Hpe : p e = false).
  { destruct (p e) eqn:Hp; [|reflexivity]. apply Hpq in Hp. congruence. }
  rewrite Hpe. cbn [orb].
  induction IH as [|c r Hc _ IHr]; [reflexivity|].
  cbn [existsb] in Hcs |- *. apply orb_false_elim in Hcs as [Hc' Hr'].
  now rewrite (Hc Hc'), (IHr Hr').
Qed.

(** X9. A document without any [script] carrying a [src] or [link]
    carrying an [href] goes through unchanged and without a warning, and
    is written all the same: the file receives the serialization of the
    parsed document. *)
Theorem document_without_references_is_reserialized (env : Env) (source : Content) :
  existsb (existsElement eligible) (load source) = false ->
  rewriteDom resolve env (load source) = (load source, noTrace) /\
  rewriteDocument resolve load html env source = (Some (html (load source)), noTrace).
Proof.
  intros Hnone.
  assert (Hsel : forall p, (forall e, p e = true -> eligible e = true) ->
                           existsb (existsElement p) (load source) = false).
  { intros p Hp. induction (load source) as [|c r IH]; [reflexivity|].
    cbn [existsb] in Hnone |- *. apply orb_false_elim in Hnone as [Hc Hr].
    now rewrite (existsElement_weaken p eligible c Hp Hc), (IH Hr). }
  assert (Hdom : rewriteDom resolve env (load source) = (load source, noTrace)).
  { unfold rewriteDom.
    rewrite (passAll_unselected env isScript (load source)).
    - rewrite (passAll_unselected env isStylesheet (load source)); [reflexivity|].
      apply Hsel. intros e He. unfold eligible. rewrite He. apply orb_true_r.
    - apply Hsel. intros e He. unfold eligible. now rewrite He. }
  split; [exact Hdom|].
  unfold rewriteDocument. rewrite Hdom. reflexivity.
Qed.

End DocumentProperties.

(* ================================================================== *)
(** ** Further properties: the integrity token *)
(* ================================================================== *)

Section Token.

Lemma length_be_bytes (n : nat) (x : Z) : List.length (Sha384.be_bytes n x) = n.
Proof. induction n as [|n IH]; [reflexivity|]. cbn [Sha384.be_bytes List.length]. now rewrite IH. Qed.

Lemma length_compress (h block : list Z) :
  List.length h = 8 -> List.length (Sha384.compress h block) = 8.
Proof.
  intros Hh. unfold Sha384.compress.
  rewrite length_map, length_combine, Hh. reflexivity.
Qed.

Lemma length_digest_words (msg : list Z) : List.length (Sha384.digest_words msg) = 8.
Proof.
  unfold Sha384.digest_words.
  generalize (Sha384.chunks 128 (List.length (Sha384.pad msg) / 128) (Sha384.pad msg)).
  assert (H0 : List.length Sha384.H0 = 8) by reflexivity.
  revert H0. generalize Sha384.H0.
  intros h Hh blocks. revert h Hh.
  induction blocks as [|b r IH]; intros h Hh; [exact Hh|].
  cbn [fold_left]. apply IH. now apply length_compress.
Qed.

(** The digest is 48 bytes long, whatever was hashed. *)
Lemma length_digest (msg : list byte) : List.length (Sha384.digest msg) = 48.
Proof.
  unfold Sha384.digest.
  rewrite (flat_map_constant_length (c := 8)).
  - rewrite length_firstn, length_digest_words. reflexivity.
  - intros x _. rewrite length_map. apply length_be_bytes.
Qed.

Lemma digit_is_base64 (m : nat) :
  m < 64 ->
  isBase64Digit (match String.get m Base64.alphabet with
                 | Some c => c
                 | None => "="%char
                 end) = true.
Proof.
  intros Hm.
  do 64 (destruct m as [|m]; [reflexivity|]).
  lia.
Qed.

Lemma sextet_is_base64 (x i : N) : isBase64Digit (Base64.sextet x i) = true.
Proof.
  unfold Base64.sextet, Base64.digit. apply digit_is_base64.
  change 63%N with (N.ones 6). rewrite N.land_ones.
  assert (H : (N.shiftr x (6 * i) mod 2 ^ 6 < 64)%N) by (apply N.mod_lt; discriminate).
  lia.
Qed.

(** Whole groups of three bytes encode to four digits each, without
    padding. *)
Lemma encode_triples (n : nat) : forall bs : list byte,
  List.length bs = 3 * n ->
  String.length (Base64.encode bs) = 4 * n /\
  forallb isBase64Digit (chars (Base64.encode bs)) = true.
Proof.
  induction n as [|n IH]; intros bs Hlen.
  - destruct bs; [split; reflexivity | discriminate].
  - destruct bs as [|a [|b [|c rest]]]; try (cbn in Hlen; lia).
    assert (Hrest : List.length rest = 3 * n) by (cbn [List.length] in Hlen; lia).
    destruct (IH rest Hrest) as [Hl Hd].
    cbn [Base64.encode String.length chars list_ascii_of_string forallb].
    rewrite !sextet_is_base64. fold (chars (Base64.encode rest)).
    rewrite Hl, Hd. split; [lia | reflexivity].
Qed.

(** X10. The value written to [integrity] always has the same shape:
    [sha384-] followed by exactly 64 base64 digits, with no padding
    character, whatever the content and its length. *)
Theorem integrity_token_shape (c : Content) :
  exists digits : string,
    integrityOf c = ("sha384-" ++ digits)%string /\
    String.length digits = 64 /\
    forallb isBase64Digit (chars digits) = true /\
    String.length (integrityOf c) = 71.
Proof.
  exists (Base64.encode (Sha384.digest (bytes_of c))).
  destruct (encode_triples 16 (Sha384.digest (bytes_of c)) (length_digest _)) as [Hl Hd].
  split; [reflexivity|]. split; [exact Hl|]. split; [exact Hd|].
  unfold integrityOf. cbn [append String.length]. now rewrite Hl.
Qed.

End Token.

(* ================================================================== *)
(** ** Further properties: the registry and the hook *)
(* ================================================================== *)

Section HookProperties.

Variable resolve : list string -> string.
Variable load : Content -> list Node.
Variable html : list Node -> string.

Lemma In_keys_set (k x : string) (v : OutputItem) (o : OutputBundle) :
  In x (JsObject.keys (JsObject.set k v o)) -> x = k \/ In x (JsObject.keys o).
Proof.
  unfold JsObject.keys. intros H. apply in_map_iff in H as ([x' v'] & Hx & Hin).
  cbn [fst] in Hx. subst x'. apply In_set in Hin as [Heq|Hin].
  - left. now inversion Heq.
  - right. apply in_map_iff. now exists (x, v').
Qed.

Lemma NoDup_keys_insertNew (k : string) (v : OutputItem) (o : OutputBundle) :
  ~ In k (JsObject.keys o) -> NoDup (JsObject.keys o) ->
  NoDup (JsObject.keys (JsObject.insertNew k v o)).
Proof.
  induction o as [|[k0 v0] o IH]; intros Hfresh Hnd.
  - cbn. constructor; [intros []|constructor].
  - cbn [JsObject.insertNew]. destruct (JsObject.before k k0).
    + cbn [JsObject.keys map fst]. constructor; assumption.
    + cbn [JsObject.keys map fst] in *. inversion Hnd as [|? ? Hk0 Hrest]; subst.
      constructor.
      * intros Hin. apply in_map_iff in Hin as ([x v'] & Hx & Hin). cbn [fst] in Hx. subst x.
        apply In_insertNew in Hin as [Heq|Hin].
        -- inversion Heq; subst. apply Hfresh. now left.
        -- apply Hk0. apply in_map_iff. now exists (k0, v').
      * apply IH; [|exact Hrest]. intros Hin. apply Hfresh. now right.
Qed.

Lemma NoDup_keys_set (k : string) (v : OutputItem) (o : OutputBundle) :
  NoDup (JsObject.keys o) -> NoDup (JsObject.keys (JsObject.set k v o)).
Proof.
  intros Hnd. unfold JsObject.set. destruct (JsObject.has k o) eqn:Hhas.
  - now rewrite keys_replace.
  - apply NoDup_keys_insertNew; [|exact Hnd].
    intros Hin. apply In_keys_has in Hin. congruence.
Qed.

Lemma NoDup_keys_merge (emitted : OutputBundle) : forall reg : OutputBundle,
  NoDup (JsObject.keys reg) -> NoDup (JsObject.keys (merge reg emitted)).
Proof.
  induction emitted as [|[k0 v0] emitted IH]; intros reg Hnd; [exact Hnd|].
  rewrite merge_cons. apply IH. now apply NoDup_keys_set.
Qed.

Lemma In_keys_merge (emitted : OutputBundle) : forall (reg : OutputBundle) (x : string),
  In x (JsObject.keys (merge reg emitted)) ->
  In x (JsObject.keys reg) \/ In x (JsObject.keys emitted).
Proof.
  induction emitted as [|[k0 v0] emitted IH]; intros reg x Hin; [now left|].
  rewrite merge_cons in Hin. apply IH in Hin as [Hin|Hin].
  - apply In_keys_set in Hin as [->|Hin]; [right; now left | now left].
  - right. now right.
Qed.

(** X11. The hook keeps the registry a well-formed bundle: if its
    records were stored under their file names and under distinct keys, and
    the emitted records are stored under their file names, the same holds
    after the call. *)
Theorem hook_keeps_the_registry_well_formed
    (s : State) (d : option string) (emitted : OutputBundle) :
  keyedByFileName (st_bundle s) ->
  NoDup (JsObject.keys (st_bundle s)) ->
  keyedByFileName emitted ->
  keyedByFileName (st_bundle (writeBundle resolve load html s d emitted)) /\
  NoDup (JsObject.keys (st_bundle (writeBundle resolve load html s d emitted))).
Proof.
  intros Hkeyed Hnd Hem. rewrite writeBundle_bundle. split.
  - now apply merge_keyed.
  - now apply NoDup_keys_merge.
Qed.

(** X12. After a call, a key of the emitted bundle holds the emitted
    record, whatever the registry held under it, and every other key holds
    what it held: the last write wins, key by key. *)
Theorem last_emitted_record_wins
    (s : State) (d : option string) (emitted : OutputBundle) (k : string) :
  NoDup (JsObject.keys emitted) ->
  JsObject.get k (st_bundle (writeBundle resolve load html s d emitted))
  = match JsObject.get k emitted with
    | Some v => Some v
    | None => JsObject.get k (st_bundle s)
    end.
Proof.
  intros Hnd. rewrite writeBundle_bundle.
  destruct (JsObject.get k emitted) as [v|] eqn:Hget.
  - apply get_merge_emitted; [exact Hnd | now apply get_In].
  - now apply get_merge_absent.
Qed.

(** The search of the registry looks at the records only. *)
Lemma findItem_none (b : OutputBundle) (p : string) :
  findItem b p = None <-> (forall k t, In (k, t) b -> fileName t <> p).
Proof.
  unfold findItem. split.
  - intros H k t Hin Heq.
    destruct (find _ b) as [kv|] eqn:Hfind; [discriminate|].
    pose proof (find_none _ _ Hfind (k, t) Hin) as Hno. cbn [snd] in Hno.
    apply String.eqb_neq in Hno. contradiction.
  - intros H. destruct (find _ b) as [[k t]|] eqn:Hfind; [|reflexivity].
    apply find_some in Hfind as [Hin Heq]. cbn [snd] in Heq.
    apply String.eqb_eq in Heq. now elim (H k t Hin).
Qed.

Lemma findItem_some (b : OutputBundle) (p : string) (t : OutputItem) :
  findItem b p = Some t -> fileName t = p /\ exists k, In (k, t) b.
Proof.
  unfold findItem.
  destruct (find _ b) as [[k v]|] eqn:Hfind; cbn [option_map snd]; [|discriminate].
  intros H; inversion H; subst v.
  apply find_some in Hfind as [Hin Heq]. cbn [snd] in Heq.
  split; [now apply String.eqb_eq | now exists k].
Qed.

Lemma In_set_self (k : string) (t : OutputItem) (b : OutputBundle) :
  In (k, t) (JsObject.set k t b).
Proof. apply get_In. rewrite get_set, String.eqb_refl. reflexivity. Qed.

(** X13. The registry is searched by the [fileName] of the records, not
    by key.  A record assigned under any key, to a registry that holds no
    record of that file name, is found by its file name, wherever the key
    places it in the property order; and it is not found by its key when
    the key differs from the file name and no record has the key as file
    name. *)
Theorem lookup_is_by_fileName (b : OutputBundle) (k : string) (t : OutputItem) :
  (forall k' t', In (k', t') b -> fileName t' <> fileName t) ->
  findItem (JsObject.set k t b) (fileName t) = Some t /\
  (k <> fileName t ->
   (forall k' t', In (k', t') b -> fileName t' <> k) ->
   findItem (JsObject.set k t b) k = None).
Proof.
  intros Hfresh. split.
  - destruct (findItem (JsObject.set k t b) (fileName t)) as [t'|] eqn:Hfind.
    + apply findItem_some in Hfind as [Hname [k' Hin]].
      apply In_set in Hin as [Heq|Hin].
      * now inversion Heq.
      * now elim (Hfresh k' t' Hin).
    + pose proof (proj1 (findItem_none _ _) Hfind k t (In_set_self k t b)) as Hno.
      now elim Hno.
  - intros Hk Hnone. apply (proj2 (findItem_none _ _)). intros k' t' Hin.
    apply In_set in Hin as [Heq|Hin].
    + inversion Heq; subst. congruence.
    + exact (Hnone k' t' Hin).
Qed.

(** The files after the writes. *)
Lemma writes_frame (cfg : ResolvedConfig) (ws : list (string * string)) :
  forall (fs : FileSystem) (p : string),
  (forall w, In w ws -> outputPath resolve cfg (fst w) <> p) ->
  fold_left (fun fs w => writeFile (outputPath resolve cfg (fst w))
                                   (list_byte_of_string (snd w)) fs) ws fs p
  = fs p.
Proof.
  induction ws as [|w r IH]; intros fs p Hall; [reflexivity|].
  cbn [fold_left]. rewrite IH by (intros w' Hin; apply Hall; now right).
  unfold writeFile. destruct (String.eqb_spec p (outputPath resolve cfg (fst w))) as [Heq|Hne].
  - symmetry in Heq. now elim (Hall w (or_introl eq_refl)).
  - reflexivity.
Qed.

(** X14. The hook writes to the output paths of the selected documents
    and nowhere else: a path that is the output path of none of them holds
    after the call what it held before. *)
Theorem hook_writes_documents_only
    (s : State) (d : option string) (emitted : OutputBundle) (p : string) :
  (forall n source,
      In (n, source) (htmls (merge (st_bundle s) emitted)) ->
      outputPath resolve (st_config s) n <> p) ->
  st_files (writeBundle resolve load html s d emitted) p = st_files s p.
Proof.
  intros Hother. unfold writeBundle. cbn [st_files].
  apply writes_frame. intros [n markup] Hin. cbn [fst].
  apply written_selected in Hin as (source & Hin). cbn [bundle] in Hin.
  now apply (Hother n source).
Qed.

Lemma htmls_without_html_keys (b : OutputBundle) :
  (forall k, In k (JsObject.keys b) -> Js.endsWith k ".html" = false) ->
  htmls b = [].
Proof.
  intros Hno. unfold htmls.
  assert (Hfil : filter (fun filename => Js.endsWith filename ".html") (JsObject.keys b) = []).
  { induction (JsObject.keys b) as [|k r IH]; [reflexivity|].
    cbn [filter]. rewrite (Hno k (or_introl eq_refl)).
    apply IH. intros k' Hin. apply Hno. now right. }
  now rewrite Hfil.
Qed.

(** X16. A call that leaves no key ending with [.html] in the registry,
    as the legacy pass that comes first, only merges: no file is written
    and nothing is logged. *)
Theorem pass_without_documents_only_merges
    (s : State) (d : option string) (emitted : OutputBundle) :
  (forall k, In k (JsObject.keys (st_bundle s)) -> Js.endsWith k ".html" = false) ->
  (forall k, In k (JsObject.keys emitted) -> Js.endsWith k ".html" = false) ->
  writeBundle resolve load html s d emitted
  = mkState (st_config s) (merge (st_bundle s) emitted) (st_files s) (st_log s).
Proof.
  intros Hreg Hem. unfold writeBundle, rewriteAll. cbn [bundle].
  rewrite htmls_without_html_keys.
  - cbn [map written flat_map fold_left]. now rewrite app_nil_r.
  - intros k Hin. apply In_keys_merge in Hin as [Hin|Hin]; [now apply Hreg | now apply Hem].
Qed.

(** X17. The documents of earlier passes are rewritten again by every
    later call: a document the registry holds, and the call does not emit
    again, is rewritten against the merged registry. *)
Theorem earlier_documents_are_rewritten_again
    (s : State) (d : option string) (emitted : OutputBundle)
    (k n : string) (source : Content) :
  Js.endsWith k ".html" = true ->
  JsObject.get k (st_bundle s) = Some (OutputAsset n source) ->
  JsObject.get k emitted = None ->
  In (n, rewriteDocument resolve load html
           (mkEnv (st_config s) (merge (st_bundle s) emitted) (st_files s) d) source)
     (rewriteAll resolve load html
        (mkEnv (st_config s) (merge (st_bundle s) emitted) (st_files s) d)).
Proof.
  intros Hends Hget Hnew. unfold rewriteAll. cbn [bundle].
  apply in_map_iff. exists (n, source). split; [reflexivity|].
  apply In_htmls. exists k. split; [|split].
  - apply In_keys_has, has_merge_kept. unfold JsObject.has. now rewrite Hget.
  - exact Hends.
  - now rewrite get_merge_absent.
Qed.

End HookProperties.

(* ================================================================== *)
(** ** Further properties: the names of the documents *)
(* ================================================================== *)

Section DocumentNames.

Lemma length_append (s t : string) :
  String.length (s ++ t)%string = String.length s + String.length t.
Proof. induction s as [|c s IH]; [reflexivity|]. cbn. now rewrite IH. Qed.

Lemma substring_split (n : nat) : forall s : string,
  n <= String.length s ->
  exists p, s = (p ++ Js.substring n s)%string /\ String.length p = n.
Proof.
  induction n as [|n IH]; intros s Hn.
  - exists ""%string. split; reflexivity.
  - destruct s as [|c s]; [cbn in Hn; lia|].
    cbn [String.length] in Hn.
    destruct (IH s (le_S_n _ _ Hn)) as (p & Hp & Hl).
    exists (String c p). cbn [Js.substring append String.length].
    split; [now rewrite <- Hp | now rewrite Hl].
Qed.

(** [s.endsWith(t)] holds exactly of the strings that are [t] after some
    prefix. *)
Lemma endsWith_iff (s t : string) :
  Js.endsWith s t = true <-> exists p, s = (p ++ t)%string.
Proof.
  unfold Js.endsWith. split.
  - intros H. apply andb_prop in H as [Hle Heq].
    apply Nat.leb_le in Hle. apply String.eqb_eq in Heq.
    destruct (substring_split (String.length s - String.length t) s) as (p & Hp & _); [lia|].
    exists p. now rewrite Heq in Hp.
  - intros [p ->]. rewrite length_append.
    replace (String.length p + String.length t - String.length t) with (String.length p) by lia.
    rewrite substring_app, String.eqb_refl, andb_true_r.
    apply Nat.leb_le. lia.
Qed.

(** X18. The documents the hook rewrites are the asset records stored
    under a key made of any prefix, the empty one included, followed by
    [.html]; the match is on the exact characters, at the end of the key. *)
Theorem documents_are_the_assets_under_html_keys
    (b : OutputBundle) (n : string) (source : Content) :
  In (n, source) (htmls b) <->
  exists p, JsObject.get (p ++ ".html")%string b = Some (OutputAsset n source).
Proof.
  rewrite (In_htmls b n source). split.
  - intros (k & _ & Hends & Hget). apply endsWith_iff in Hends as [p ->]. now exists p.
  - intros [p Hget]. exists (p ++ ".html")%string. split; [|split].
    + apply In_keys_has. unfold JsObject.has. now rewrite Hget.
    + apply endsWith_iff. now exists p.
    + exact Hget.
Qed.

End DocumentNames.

(* ================================================================== *)
(** ** The further properties on concrete inputs *)
(* ================================================================== *)

Lemma tracked_content_is_hashed_witness :
  exists e',
    calculateIntegrityHashes Demo.joinPath
      (mkEnv Demo.cfg Demo.legacyPass Samples.cssOnDisk (Some "dist"))
      Samples.rewrittenScript = Some (e', []) /\
    JsObject.get "integrity" (attribs e') = Some (integrityOf (Text "console.log(1)")) /\
    JsObject.get "src" (attribs e') = Some "/assets/legacy.js".
Proof.
  destruct (tracked_content_is_hashed Demo.joinPath
              (mkEnv Demo.cfg Demo.legacyPass Samples.cssOnDisk (Some "dist"))
              Samples.rewrittenScript "/assets/legacy.js"
              (OutputChunk "assets/legacy.js" "console.log(1)")
              eq_refl eq_refl eq_refl) as (e' & Hcall & _ & Hint & Hrest).
  exists e'. split; [exact Hcall|]. split; [exact Hint|].
  rewrite Hrest; [reflexivity | discriminate | discriminate].
Defined.

Lemma untracked_file_on_disk_is_hashed_witness :
  exists e',
    calculateIntegrityHashes Demo.joinPath
      (mkEnv Demo.cfg [] Samples.cssOnDisk (Some "dist"))
      (Demo.stylesheet "/assets/old.css")
    = Some (e', ["cannot find assets/old.css in output bundle."]) /\
    JsObject.get "integrity" (attribs e') = Some (integrityOf (Binary [x61; x7b; x7d])).
Proof.
  exact (untracked_file_on_disk_is_hashed Demo.joinPath
           (mkEnv Demo.cfg [] Samples.cssOnDisk (Some "dist"))
           (Demo.stylesheet "/assets/old.css") "/assets/old.css" "dist" [x61; x7b; x7d]
           eq_refl eq_refl eq_refl eq_refl).
Defined.

Lemma attributes_are_appended_witness :
  exists e' w,
    calculateIntegrityHashes Demo.joinPath
      (mkEnv Demo.cfg Demo.legacyPass Demo.noFiles (Some "dist"))
      (Demo.script "/assets/legacy.js") = Some (e', w) /\
    JsObject.keys (attribs e') = ["src"; "integrity"; "crossorigin"].
Proof.
  destruct (attributes_are_appended Demo.joinPath
              (mkEnv Demo.cfg Demo.legacyPass Demo.noFiles (Some "dist"))
              (Demo.script "/assets/legacy.js") "/assets/legacy.js" eq_refl)
    as (e' & w & Hcall & Hkeys).
  exists e', w. split; [exact Hcall | exact Hkeys].
Defined.

Lemma second_call_changes_nothing_witness :
  calculateIntegrityHashes Demo.joinPath
    (mkEnv Demo.cfg Demo.legacyPass Demo.noFiles (Some "dist"))
    (mkElement "script" [("src", "/assets/missing.js"); ("crossorigin", "anonymous")])
  = Some (mkElement "script" [("src", "/assets/missing.js"); ("crossorigin", "anonymous")],
          ["cannot find assets/missing.js in output bundle."]).
Proof.
  exact (proj1 (second_call_changes_nothing Demo.joinPath
                  (mkEnv Demo.cfg Demo.legacyPass Demo.noFiles (Some "dist"))
                  (Demo.script "/assets/missing.js")
                  (mkElement "script"
                     [("src", "/assets/missing.js"); ("crossorigin", "anonymous")])
                  ["cannot find assets/missing.js in output bundle."] eq_refl)).
Defined.

Lemma call_throws_on_empty_src_only_witness :
  calculateIntegrityHashes Demo.joinPath
    (mkEnv Demo.cfg Demo.legacyPass Demo.noFiles (Some "dist")) (Demo.script "") = None.
Proof.
  apply (proj1 (call_throws_on_empty_src_only Demo.joinPath
                  (mkEnv Demo.cfg Demo.legacyPass Demo.noFiles (Some "dist"))
                  (Demo.script "") eq_refl)).
  split; reflexivity.
Defined.

Lemma document_without_references_is_reserialized_witness :
  rewriteDocument Demo.joinPath (fun _ => Samples.plainPage) Demo.renderAll
    (mkEnv Demo.cfg Demo.legacyPass Demo.noFiles (Some "dist")) (Text "")
  = (Some (Demo.renderAll Samples.plainPage), noTrace).
Proof.
  exact (proj2 (document_without_references_is_reserialized Demo.joinPath
                  (fun _ => Samples.plainPage) Demo.renderAll
                  (mkEnv Demo.cfg Demo.legacyPass Demo.noFiles (Some "dist"))
                  (Text "") eq_refl)).
Defined.

Lemma hook_keeps_the_registry_well_formed_witness :
  NoDup (JsObject.keys
           (st_bundle (writeBundle Demo.joinPath Demo.loadPage Demo.renderAll
                         (mkState Demo.cfg Demo.legacyPass Demo.noFiles [])
                         (Some "dist") Demo.modernPass))).
Proof.
  refine (proj2 (hook_keeps_the_registry_well_formed
                   Demo.joinPath Demo.loadPage Demo.renderAll
                   (mkState Demo.cfg Demo.legacyPass Demo.noFiles [])
                   (Some "dist") Demo.modernPass _ _ _)).
  - keyed_by_entries.
  - repeat constructor; simpl; intuition discriminate.
  - keyed_by_entries.
Defined.

Lemma last_emitted_record_wins_witness :
  JsObject.get "assets/legacy.js"
    (st_bundle (writeBundle Demo.joinPath Demo.loadPage Demo.renderAll
                  (mkState Demo.cfg Demo.emptyChunkPass Demo.noFiles [])
                  (Some "dist")
                  [("assets/legacy.js", OutputChunk "assets/legacy.js" "console.log(2)")]))
  = Some (OutputChunk "assets/legacy.js" "console.log(2)").
Proof.
  refine (last_emitted_record_wins Demo.joinPath Demo.loadPage Demo.renderAll
            (mkState Demo.cfg Demo.emptyChunkPass Demo.noFiles [])
            (Some "dist")
            [("assets/legacy.js", OutputChunk "assets/legacy.js" "console.log(2)")]
            "assets/legacy.js" _).
  repeat constructor; simpl; intuition discriminate.
Defined.

Lemma hook_writes_documents_only_witness :
  st_files (writeBundle Demo.joinPath (fun _ => Samples.plainPage) Demo.renderAll
              (mkState Demo.cfg Demo.legacyPass Samples.cssOnDisk [])
              (Some "dist") Demo.modernPass) "dist/assets/old.css"
  = Some [x61; x7b; x7d].
Proof.
  refine (hook_writes_documents_only Demo.joinPath (fun _ => Samples.plainPage) Demo.renderAll
            (mkState Demo.cfg Demo.legacyPass Samples.cssOnDisk [])
            (Some "dist") Demo.modernPass "dist/assets/old.css" _).
  intros n source Hin. cbv in Hin. destruct Hin as [Heq|[]].
  inversion Heq; subst. discriminate.
Defined.

Lemma pass_without_documents_only_merges_witness :
  writeBundle Demo.joinPath Demo.loadPage Demo.renderAll
    (mkState Demo.cfg [] Samples.cssOnDisk []) (Some "dist") Demo.legacyPass
  = mkState Demo.cfg Demo.legacyPass Samples.cssOnDisk [].
Proof.
  refine (pass_without_documents_only_merges Demo.joinPath Demo.loadPage Demo.renderAll
            (mkState Demo.cfg [] Samples.cssOnDisk []) (Some "dist") Demo.legacyPass _ _).
  - intros k [].
  - intros k [<-|[]]. reflexivity.
Defined.

Lemma earlier_documents_are_rewritten_again_witness :
  exists result,
    In ("index.html", result)
       (rewriteAll Demo.joinPath Demo.loadPage Demo.renderAll
          (mkEnv Demo.cfg (merge Demo.modernPass Demo.legacyPass) Demo.noFiles (Some "dist"))).
Proof.
  eexists.
  exact (earlier_documents_are_rewritten_again Demo.joinPath Demo.loadPage Demo.renderAll
           (mkState Demo.cfg Demo.modernPass Demo.noFiles []) (Some "dist") Demo.legacyPass
           "index.html" "index.html" (Text "<html>...</html>") eq_refl eq_refl eq_refl).
Defined.

Lemma lookup_is_by_fileName_witness :
  findItem
    (JsObject.set "7" (OutputChunk "assets/app.js" "export{}") Demo.legacyPass)
    "assets/app.js"
  = Some (OutputChunk "assets/app.js" "export{}") /\
  findItem
    (JsObject.set "7" (OutputChunk "assets/app.js" "export{}") Demo.legacyPass) "7"
  = None.
Proof.
  destruct (lookup_is_by_fileName Demo.legacyPass "7"
              (OutputChunk "assets/app.js" "export{}")) as [Hfound Hkey].
  - intros k' t' [Heq|[]]. inversion Heq; subst. discriminate.
  - split; [exact Hfound|]. apply Hkey; [discriminate|].
    intros k' t' [Heq|[]]. inversion Heq; subst. discriminate.
Defined.
